(** * A text client for the Google Assistant Service: writeWithAssistant.py

    Shallow embedding of [SampleTextAssistant] and [main], followed by the
    properties of the session and of the program's runs.

    The program talks to three things outside itself: the credential file
    and the identity provider, the remote assistant service, and the
    operator's terminal.  Their behaviour is an input of the model (an
    [Environment]); what the program does to them is recorded, in order, in
    the [trace] of the [World]. *)

From Stdlib Require Import List String Ascii Strings.Byte ZArith Bool Arith Lia.
Import ListNotations.
Local Open Scope string_scope.

(** ** Python values *)

Definition bytes := list byte.

(** Truthiness of [bytes] and [str]: only the empty value is falsy. *)
Definition truthy_bytes (b : bytes) : bool :=
  match b with [] => false | _ :: _ => true end.

Definition truthy_str (s : string) : bool :=
  match s with EmptyString => false | String _ _ => true end.

(** [if x:] on a value that is [None] or [bytes]. *)
Definition truthy_opt_bytes (o : option bytes) : bool :=
  match o with None => false | Some b => truthy_bytes b end.

(** ['%s' % x] for [x] a [str] or [None]. *)
Definition percent_s (x : option string) : string :=
  match x with None => "None" | Some s => s end.

(** ** The messages of embedded_assistant_pb2 that the client touches *)

Module AudioOutConfig.
Inductive Encoding := ENCODING_UNSPECIFIED | LINEAR16 | MP3 | OPUS_IN_OGG.
Record t := mk
  { encoding : Encoding; sample_rate_hertz : Z; volume_percentage : Z }.
End AudioOutConfig.

Module DialogStateIn.
Record t := mk { language_code : string; conversation_state : bytes }.
(** [dialog_state_in.conversation_state = v] *)
Definition set_conversation_state (d : t) (v : bytes) : t :=
  mk (language_code d) v.
End DialogStateIn.

Module DeviceConfig.
Record t := mk { device_id : string; device_model_id : string }.
End DeviceConfig.

Module AssistConfig.
Record t := mk
  { audio_out_config : AudioOutConfig.t;
    dialog_state_in : DialogStateIn.t;
    device_config : DeviceConfig.t;
    text_query : string }.
End AssistConfig.

Module AssistRequest.
Record t := mk { config : AssistConfig.t }.
End AssistRequest.

Module DialogStateOut.
(** A field that is not set on the wire reads as the empty value. *)
Record t := mk
  { supplemental_display_text : string; conversation_state : bytes }.
End DialogStateOut.

Module AssistResponse.
Record t := mk { dialog_state_out : DialogStateOut.t }.
End AssistResponse.

(** ** The static configuration module, as far as the code reads it *)

Module config.
Record audio_out_config_t := mk_audio
  { encoding : AudioOutConfig.Encoding;
    sample_rate_hertz : Z;
    volume_percentage : Z }.
Record writtenAssist_t := mk_written
  { audio_out_config : audio_out_config_t;
    promptIn : string;
    promptOut : string }.
Record t := mk { writtenAssist : writtenAssist_t }.
End config.

(** ** Errors *)

(** Status codes with which a call can end other than OK. *)
Inductive StatusCode :=
| CANCELLED | UNKNOWN | INVALID_ARGUMENT | DEADLINE_EXCEEDED
| PERMISSION_DENIED | RESOURCE_EXHAUSTED | INTERNAL | UNAVAILABLE
| UNAUTHENTICATED.

(** What the body of the [try] in [main] can raise; every one of them is an
    [Exception], so the handler catches it.  The argument is [str(e)]. *)
Inductive LoadError :=
| OSError (msg : string)          (* open: file missing or unreadable *)
| JSONDecodeError (msg : string)  (* json.load: malformed contents *)
| TypeError (msg : string)        (* Credentials(...): unexpected key *)
| RefreshError (msg : string).    (* credentials.refresh: rejected *)

Definition str_of_error (e : LoadError) : string :=
  match e with
  | OSError m | JSONDecodeError m | TypeError m | RefreshError m => m
  end.

(** Exceptions that leave [assist] or the main loop. *)
Inductive PyExc :=
| RpcError (code : StatusCode)  (* raised while iterating the responses *)
| Abort.                        (* click.prompt at end of input or on ^C *)

Inductive Result (A : Type) :=
| Ok (a : A)
| Raise (e : PyExc).
Arguments Ok {A} a.
Arguments Raise {A} e.

(** ** The outside world *)

Record Credentials := { access_token : string }.

(** A channel is a handle; [channel_id] tells two channels to the same
    endpoint apart. *)
Record Channel :=
  { channel_id : nat; channel_credentials : Credentials;
    channel_target : string }.

(** [EmbeddedAssistantStub(channel)] *)
Record Stub := { stub_channel : Channel }.

(** The iterator a streaming call returns: it yields response messages and
    then either is exhausted or raises. *)
Inductive ResponseIterator :=
| StopIteration
| Raises (code : StatusCode)
| Yield (resp : AssistResponse.t) (rest : ResponseIterator).

Inductive LogLevel := DEBUG | INFO.

(** What a run does to the outside, one event per effect.
    [ChannelClosed] is what closing a channel would leave in the trace; it
    is part of the vocabulary so that runs can be asked about it.
    A call leaves two events: [AssistCalled] when [Assist(...)] is entered,
    the request generator not yet touched, and [RpcAssist] when the
    requests pulled from the generator go out through the stub.
    [Prompt] is the label of [click.prompt] being shown, which happens
    before every attempt to read a line. *)
Inductive Event :=
| BasicConfig (level : LogLevel)
| LogError (msg : string)
| LogRequest (req : AssistRequest.t)
| LogResponse (resp : AssistResponse.t)
| ChannelCreated (ch : Channel)
| ChannelClosed (ch : Channel)
| StubCreated (ch : Channel)
| AssistCalled (stub : Stub) (deadline : Z)
| RpcAssist (stub : Stub) (requests : list AssistRequest.t) (deadline : Z)
| Prompt (label : string)
| Echo (message : string).

(** [trace]: what the program has done so far, oldest first.  [calls]: how
    many calls have been started; [channels]: how many channels have been
    created. *)
Record World := { trace : list Event; calls : nat; channels : nat }.

Definition initial_world : World :=
  {| trace := []; calls := 0; channels := 0 |}.

(** The behaviour of everything outside the program during one run. *)
Record Environment :=
  { (** outcome of reading, parsing and refreshing the credentials at a path *)
    load_credentials : string -> LoadError + Credentials;
    (** the responses to the [n]-th call, given what was sent *)
    service : nat -> list AssistRequest.t -> Z -> ResponseIterator;
    (** the lines the operator types before the input ends *)
    stdin : list string }.

(** ** A state and exception monad

    A raised exception keeps the state reached so far: Python does not roll
    back the assignments made before the [raise]. *)

Definition M (S A : Type) : Type := S -> Result A * S.

Definition ret {S A} (a : A) : M S A := fun s => (Ok a, s).

Definition raise {S A} (e : PyExc) : M S A := fun s => (Raise e, s).

Definition bind {S A B} (m : M S A) (k : A -> M S B) : M S B :=
  fun s =>
    match m s with
    | (Ok a, s') => k a s'
    | (Raise e, s') => (Raise e, s')
    end.

Declare Scope monad_scope.
Delimit Scope monad_scope with monad.
Notation "x <- m ;; k" := (bind m (fun x => k))
  (at level 61, m at next level, right associativity) : monad_scope.
Notation "m ;; k" := (bind m (fun _ => k))
  (at level 61, right associativity) : monad_scope.
Local Open Scope monad_scope.

Definition emit (e : Event) : M World unit :=
  fun w => (Ok tt, {| trace := trace w ++ [e];
                      calls := calls w;
                      channels := channels w |}).

(** ** The logging helpers *)

Module assistant_helpers.
(** Modelled from the spec: the module assistant_helpers is not among the
    sources.  Each call is to leave a log record of the outgoing request
    and of every incoming response, without any audio payload; the messages
    modelled here carry none, so the record is the message itself. *)
Definition log_assist_request_without_audio (req : AssistRequest.t)
  : M World unit :=
  emit (LogRequest req).

(** Modelled from the spec: as above, for a response. *)
Definition log_assist_response_without_audio (resp : AssistResponse.t)
  : M World unit :=
  emit (LogResponse resp).
End assistant_helpers.

(** ** The session *)

Module SampleTextAssistant.

Record t := mk
  { language_code : string;
    device_model_id : string;
    device_id : string;
    conversation_state : option bytes;
    assistant : Stub;
    deadline : Z }.

(** The session object and the world it acts on. *)
Record Frame := { self : t; world : World }.

(** [self.conversation_state = v] *)
Definition set_conversation_state (v : bytes) : M Frame unit :=
  fun f =>
    (Ok tt,
     {| self := mk (language_code (self f)) (device_model_id (self f))
                   (device_id (self f)) (Some v)
                   (assistant (self f)) (deadline (self f));
        world := world f |}).

Definition get_self : M Frame t := fun f => (Ok (self f), f).

(** An action on the world, run from a method of the session. *)
Definition lift {A} (m : M World A) : M Frame A :=
  fun f =>
    let '(r, w) := m (world f) in (r, {| self := self f; world := w |}).

Definition __init__ (language_code device_model_id device_id : string)
    (channel : Channel) (deadline_sec : Z) : M World t :=
  emit (StubCreated channel) ;;
  ret (mk language_code device_model_id device_id None
          {| stub_channel := channel |} deadline_sec).

Definition __enter__ (self : t) : t := self.

(** [Some false] is [return False]; [None] is falling off the end. *)
Definition __exit__ (self : t) (e : option PyExc) : option bool :=
  match e with
  | Some _ => Some false
  | None => None
  end.

Section Assist.
Variable cfg : config.t.
Variable env : Environment.

(** The body of the generator handed to the stub.  Nothing of it runs when
    the generator is made; when the stub pulls it, it builds one request
    from the session as it then is, logs it and yields it. *)
Definition iter_assist_requests (text_query : string)
  : M Frame (list AssistRequest.t) :=
  self <- get_self ;;
  let dialog_state_in :=
    DialogStateIn.mk (language_code self) [] in
  let dialog_state_in :=
    if truthy_opt_bytes (conversation_state self)
    then DialogStateIn.set_conversation_state dialog_state_in
           (match conversation_state self with
            | Some v => v
            | None => []
            end)
    else dialog_state_in in
  let audio := config.audio_out_config (config.writtenAssist cfg) in
  let gConfig :=
    AssistConfig.mk
      (AudioOutConfig.mk (config.encoding audio)
         (config.sample_rate_hertz audio)
         (config.volume_percentage audio))
      dialog_state_in
      (DeviceConfig.mk (device_id self) (device_model_id self))
      text_query in
  let req := AssistRequest.mk gConfig in
  lift (assistant_helpers.log_assist_request_without_audio req) ;;
  ret [req].

(** The requests pulled from the generator go out through the stub, and
    the service decides what comes back. *)
Definition send (requests : list AssistRequest.t)
  : M Frame ResponseIterator :=
  fun f =>
    let w := world f in
    (Ok (service env (calls w) requests (deadline (self f))),
     {| self := self f;
        world :=
          {| trace := trace w ++
               [RpcAssist (assistant (self f)) requests
                  (deadline (self f))];
             calls := S (calls w);
             channels := channels w |} |}).

(** [self.assistant.Assist(request_iterator, self.deadline)].  The call is
    entered with the generator untouched; the stub then pulls the requests
    from it, which is when the body of the generator runs, and sends them.
    The generator is consumed on a thread of the stub; the model runs it as
    soon as the call is entered, before any response is looked at. *)
Definition Assist (request_iterator : M Frame (list AssistRequest.t))
  : M Frame ResponseIterator :=
  self <- get_self ;;
  lift (emit (AssistCalled (assistant self) (deadline self))) ;;
  requests <- request_iterator ;;
  send requests.

(** The [for resp in ...] loop, with the local [display_text]. *)
Fixpoint for_resp (it : ResponseIterator) (display_text : option string)
  : M Frame (option string) :=
  match it with
  | StopIteration => ret display_text
  | Raises code => raise (RpcError code)
  | Yield resp rest =>
      lift (assistant_helpers.log_assist_response_without_audio resp) ;;
      let out := AssistResponse.dialog_state_out resp in
      (if truthy_bytes (DialogStateOut.conversation_state out)
       then set_conversation_state (DialogStateOut.conversation_state out)
       else ret tt) ;;
      let display_text :=
        if truthy_str (DialogStateOut.supplemental_display_text out)
        then Some (DialogStateOut.supplemental_display_text out)
        else display_text in
      for_resp rest display_text
  end.

Definition assist (text_query : string) : M Frame (option string) :=
  it <- Assist (iter_assist_requests text_query) ;;
  for_resp it None.

End Assist.
End SampleTextAssistant.

(** ** The program *)

(** The value [main] receives for [input]: the default [False], or a text
    ("Text input via string. If set to False it will prompt a conversation
    via I/O").  How the command line is parsed into it is the business of
    the option parser. *)
Inductive InputOption :=
| InputFalse
| InputText (s : string).

Record Options :=
  { api_endpoint : string;
    credentials : string;
    device_model_id : string;
    device_id : string;
    lang : string;
    verbose : bool;
    grpc_deadline : Z;
    input : InputOption }.

(** Truthiness of what a method returned: [None], [False] or [True]. *)
Definition truthy_opt_bool (o : option bool) : bool :=
  match o with None => false | Some b => b end.

Section Program.
Variable cfg : config.t.
Variable env : Environment.

(** [google.auth.transport.grpc.secure_authorized_channel] *)
Definition secure_authorized_channel (creds : Credentials) (target : string)
  : M World Channel :=
  fun w =>
    let ch := {| channel_id := channels w;
                 channel_credentials := creds;
                 channel_target := target |} in
    (Ok ch, {| trace := trace w ++ [ChannelCreated ch];
               calls := calls w;
               channels := S (channels w) |}).

(** [with obj as assistant: body].  [__exit__] is called with the exception
    that left the body, if any, and the exception goes on unless [__exit__]
    returned a true value. *)
Definition with_as (obj : SampleTextAssistant.t)
    (body : M SampleTextAssistant.Frame unit) : M World unit :=
  fun w =>
    let assistant := SampleTextAssistant.__enter__ obj in
    let '(r, f) :=
      body {| SampleTextAssistant.self := assistant;
              SampleTextAssistant.world := w |} in
    let self := SampleTextAssistant.self f in
    let w' := SampleTextAssistant.world f in
    match r with
    | Ok _ =>
        let _ := SampleTextAssistant.__exit__ self None in (Ok tt, w')
    | Raise e =>
        if truthy_opt_bool (SampleTextAssistant.__exit__ self (Some e))
        then (Ok tt, w')
        else (Raise e, w')
    end.

(** The body of the [if input:] branch. *)
Definition single_shot (text_query : string)
  : M SampleTextAssistant.Frame unit :=
  display_text <- SampleTextAssistant.assist cfg env text_query ;;
  SampleTextAssistant.lift (emit (Echo (percent_s display_text))).

(** [click.prompt(text)], with no default value, over the lines still to
    be typed: it shows its label and reads a line, again and again until
    the line is not empty, and returns that line (with the lines left); it
    raises [Abort] when the input has ended. *)
Fixpoint click_prompt (text : string) (lines : list string)
  : M World (string * list string) :=
  emit (Prompt text) ;;
  match lines with
  | [] => raise Abort
  | value :: lines =>
      if truthy_str value then ret (value, lines)
      else click_prompt text lines
  end.

(** The [while True:] loop, over the lines still to be typed, with
    [click.prompt] written out in it so that the recursion is on the
    lines: after an empty line the label is shown again and the next line
    read, within the same [click.prompt]; a line that is not empty is the
    [text_query] of the turn.  The loop has no exit of its own. *)
Fixpoint while_True (lines : list string)
  : M SampleTextAssistant.Frame unit :=
  let written := config.writtenAssist cfg in
  SampleTextAssistant.lift (emit (Prompt (config.promptIn written))) ;;
  match lines with
  | [] => raise Abort
  | value :: lines =>
      if truthy_str value
      then
        let text_query := value in
        display_text <- SampleTextAssistant.assist cfg env text_query ;;
        SampleTextAssistant.lift
          (emit (Echo (config.promptOut written
                       ++ " " ++ percent_s display_text))) ;;
        while_True lines
      else while_True lines
  end.

Definition main (o : Options) : M World unit :=
  emit (BasicConfig (if verbose o then DEBUG else INFO)) ;;
  match load_credentials env (credentials o) with
  | inl e =>
      emit (LogError ("Error loading credentials: " ++ str_of_error e)) ;;
      emit (LogError ("Run google-oauthlib-tool to initialize "
                      ++ "new OAuth 2.0 credentials.")) ;;
      ret tt
  | inr creds =>
      grpc_channel <- secure_authorized_channel creds (api_endpoint o) ;;
      session <- SampleTextAssistant.__init__ (lang o) (device_model_id o)
                   (device_id o) grpc_channel (grpc_deadline o) ;;
      with_as session
        (* if input: *)
        match input o with
        | InputText text_query =>
            if truthy_str text_query
            then single_shot text_query
            else while_True (stdin env)
        | InputFalse => while_True (stdin env)
        end
  end.

(** [if __name__ == '__main__': main()]: the status the process ends with,
    0 when [main] returns and 1 when an exception leaves it. *)
Definition exit_status (r : Result unit) : Z :=
  match r with Ok _ => 0 | Raise _ => 1 end.

End Program.

(** ** Reading runs *)

(** The messages an iterator delivers before it ends. *)
Fixpoint received (it : ResponseIterator) : list AssistResponse.t :=
  match it with
  | StopIteration | Raises _ => []
  | Yield resp rest => resp :: received rest
  end.

(** How an iterator ends: [None] when exhausted, the status when it raises. *)
Fixpoint failure (it : ResponseIterator) : option StatusCode :=
  match it with
  | StopIteration => None
  | Raises code => Some code
  | Yield _ rest => failure rest
  end.

Definition display_text_of (r : AssistResponse.t) : string :=
  DialogStateOut.supplemental_display_text (AssistResponse.dialog_state_out r).

Definition state_of (r : AssistResponse.t) : bytes :=
  DialogStateOut.conversation_state (AssistResponse.dialog_state_out r).

(** The last element of a list, if it has one. *)
Fixpoint last_opt {A} (l : list A) : option A :=
  match l with
  | [] => None
  | [x] => Some x
  | _ :: l' => last_opt l'
  end.

(** The non-empty display texts, and the non-empty conversation states,
    carried by a sequence of messages, in order. *)
Definition display_texts (rs : list AssistResponse.t) : list string :=
  filter truthy_str (map display_text_of rs).

Definition states (rs : list AssistResponse.t) : list bytes :=
  filter truthy_bytes (map state_of rs).

(** The conversation state held after receiving [rs] while holding [held]. *)
Definition carry (held : option bytes) (rs : list AssistResponse.t)
  : option bytes :=
  match last_opt (states rs) with
  | Some s => Some s
  | None => held
  end.

(** The bytes a session puts in a request for the state it holds. *)
Definition held_bytes (held : option bytes) : bytes :=
  match held with Some s => s | None => [] end.

(** The lines [click.prompt] hands to the loop: those that are not empty. *)
Definition typed (lines : list string) : list string :=
  filter truthy_str lines.

(** Projections of a trace. *)
Definition requests_of (e : Event) : list AssistRequest.t :=
  match e with RpcAssist _ reqs _ => reqs | _ => [] end.

Definition sent (tr : list Event) : list AssistRequest.t :=
  flat_map requests_of tr.

Definition is_call (e : Event) : bool :=
  match e with RpcAssist _ _ _ => true | _ => false end.

Definition call_count (tr : list Event) : nat :=
  List.length (filter is_call tr).

Definition echoed (tr : list Event) : list string :=
  flat_map (fun e => match e with Echo m => [m] | _ => [] end) tr.

Definition prompted (tr : list Event) : list string :=
  flat_map (fun e => match e with Prompt m => [m] | _ => [] end) tr.

Definition created (tr : list Event) : list Channel :=
  flat_map (fun e => match e with ChannelCreated c => [c] | _ => [] end) tr.

Definition closed (tr : list Event) : list Channel :=
  flat_map (fun e => match e with ChannelClosed c => [c] | _ => [] end) tr.

Definition stubs (tr : list Event) : list Channel :=
  flat_map (fun e => match e with StubCreated c => [c] | _ => [] end) tr.

Definition call_channels (tr : list Event) : list Channel :=
  flat_map (fun e => match e with
                     | RpcAssist s _ _ => [stub_channel s]
                     | _ => []
                     end) tr.

(** ** What one call does, in closed form *)

(** The session [s] holding [v] instead of its conversation state. *)
Definition with_conversation_state (s : SampleTextAssistant.t)
    (v : option bytes) : SampleTextAssistant.t :=
  SampleTextAssistant.mk
    (SampleTextAssistant.language_code s)
    (SampleTextAssistant.device_model_id s)
    (SampleTextAssistant.device_id s)
    v
    (SampleTextAssistant.assistant s)
    (SampleTextAssistant.deadline s).

(** The candidate reply after receiving [rs] with candidate [dt] so far. *)
Definition reply_after (dt : option string) (rs : list AssistResponse.t)
  : option string :=
  match last_opt (display_texts rs) with
  | Some s => Some s
  | None => dt
  end.

(** The world after the events [evs] and [n] more calls. *)
Definition extend (w : World) (evs : list Event) (n : nat) : World :=
  {| trace := trace w ++ evs; calls := n + calls w; channels := channels w |}.

(** The request a session sends for a text, read off the session. *)
Definition request_for (cfg : config.t) (s : SampleTextAssistant.t)
    (text_query : string) : AssistRequest.t :=
  let audio := config.audio_out_config (config.writtenAssist cfg) in
  AssistRequest.mk
    (AssistConfig.mk
       (AudioOutConfig.mk (config.encoding audio)
          (config.sample_rate_hertz audio) (config.volume_percentage audio))
       (DialogStateIn.mk (SampleTextAssistant.language_code s)
          (held_bytes (SampleTextAssistant.conversation_state s)))
       (DeviceConfig.mk (SampleTextAssistant.device_id s)
          (SampleTextAssistant.device_model_id s))
       text_query).

(** The iterator the service returns to a call made from frame [f]. *)
Definition exchange (cfg : config.t) (env : Environment)
    (f : SampleTextAssistant.Frame) (text_query : string)
  : ResponseIterator :=
  let s := SampleTextAssistant.self f in
  service env (calls (SampleTextAssistant.world f))
    [request_for cfg s text_query] (SampleTextAssistant.deadline s).

(** How a loop over an iterator ends. *)
Definition outcome (it : ResponseIterator) (dt : option string)
  : Result (option string) :=
  match failure it with
  | None => Ok (reply_after dt (received it))
  | Some code => Raise (RpcError code)
  end.

(** The events of one call. *)
Definition call_events (s : SampleTextAssistant.t) (req : AssistRequest.t)
    (it : ResponseIterator) : list Event :=
  AssistCalled (SampleTextAssistant.assistant s)
    (SampleTextAssistant.deadline s)
  :: LogRequest req
  :: RpcAssist (SampleTextAssistant.assistant s) [req]
       (SampleTextAssistant.deadline s)
  :: map LogResponse (received it).

(** Runs of successful calls on one session: [successful_calls f rs f']
    when some calls, each returning normally, lead from [f] to [f'] and
    [rs] are the messages received in them, in order.  Between two calls
    the session object is the same; the world may have moved on in any
    way (the program prints and prompts, other calls may have been made
    elsewhere), so the next call starts in any world [w]. *)
Inductive successful_calls (cfg : config.t) (env : Environment)
  : SampleTextAssistant.Frame -> list AssistResponse.t ->
    SampleTextAssistant.Frame -> Prop :=
| calls_done f : successful_calls cfg env f [] f
| calls_step f text_query reply f1 w rs f2 :
    SampleTextAssistant.assist cfg env text_query f = (Ok reply, f1) ->
    successful_calls cfg env
      {| SampleTextAssistant.self := SampleTextAssistant.self f1;
         SampleTextAssistant.world := w |} rs f2 ->
    successful_calls cfg env f
      (received (exchange cfg env f text_query) ++ rs) f2.

(** An event a session body may produce when its stub is [stub]: anything
    but creating or closing a channel or a stub, and calls go through
    [stub]. *)
Definition session_event (stub : Stub) (e : Event) : Prop :=
  match e with
  | AssistCalled s _ | RpcAssist s _ _ => s = stub
  | ChannelCreated _ | ChannelClosed _ | StubCreated _ => False
  | BasicConfig _ | LogError _ | LogRequest _ | LogResponse _
  | Prompt _ | Echo _ => True
  end.

(** The session [main] creates, and the frame its body starts in. *)
Definition channel0 (creds : Credentials) (o : Options) : Channel :=
  {| channel_id := 0; channel_credentials := creds;
     channel_target := api_endpoint o |}.

Definition session0 (creds : Credentials) (o : Options)
  : SampleTextAssistant.t :=
  SampleTextAssistant.mk (lang o) (device_model_id o) (device_id o) None
    {| stub_channel := channel0 creds o |} (grpc_deadline o).

Definition startup (creds : Credentials) (o : Options) : list Event :=
  [BasicConfig (if verbose o then DEBUG else INFO);
   ChannelCreated (channel0 creds o);
   StubCreated (channel0 creds o)].

Definition frame0 (creds : Credentials) (o : Options)
  : SampleTextAssistant.Frame :=
  {| SampleTextAssistant.self := session0 creds o;
     SampleTextAssistant.world :=
       {| trace := startup creds o; calls := 0; channels := 1 |} |}.

(** [o] with another value for [--input]. *)
Definition with_input (o : Options) (i : InputOption) : Options :=
  {| api_endpoint := api_endpoint o;
     credentials := credentials o;
     device_model_id := device_model_id o;
     device_id := device_id o;
     lang := lang o;
     verbose := verbose o;
     grpc_deadline := grpc_deadline o;
     input := i |}.

(** The frame after a call made from [f] that added the events [evs]. *)
Definition after_call (cfg : config.t) (env : Environment)
    (f : SampleTextAssistant.Frame) (text_query : string) (evs : list Event)
  : SampleTextAssistant.Frame :=
  let s := SampleTextAssistant.self f in
  {| SampleTextAssistant.self :=
       with_conversation_state s
         (carry (SampleTextAssistant.conversation_state s)
            (received (exchange cfg env f text_query)));
     SampleTextAssistant.world :=
       extend (SampleTextAssistant.world f) evs 1 |}.

(** The body [main] runs inside the [with]. *)
Definition body (cfg : config.t) (env : Environment) (o : Options)
  : M SampleTextAssistant.Frame unit :=
  match input o with
  | InputText text_query =>
      if truthy_str text_query
      then single_shot cfg env text_query
      else while_True cfg env (stdin env)
  | InputFalse => while_True cfg env (stdin env)
  end.

(** ** Fixtures *)

Definition cfg0 : config.t :=
  config.mk
    (config.mk_written (config.mk_audio AudioOutConfig.LINEAR16 16000 100)
       "<you>" "<@assistant>").

Definition response (text : string) (state : bytes) : AssistResponse.t :=
  AssistResponse.mk (DialogStateOut.mk text state).

Definition S1 : bytes := [x53; x31].
Definition S2 : bytes := [x53; x32].

Definition creds0 : Credentials := {| access_token := "ya29.token" |}.

Definition options0 (i : InputOption) : Options :=
  {| api_endpoint := "embeddedassistant.googleapis.com";
     credentials := "credentials.json";
     device_model_id := "model-1";
     device_id := "device-1";
     lang := "en-US";
     verbose := false;
     grpc_deadline := 185;
     input := i |}.

(** A service that answers every call with the same iterator. *)
Definition env_const (it : ResponseIterator) (lines : list string)
  : Environment :=
  {| load_credentials := fun _ => inr creds0;
     service := fun _ _ _ => it;
     stdin := lines |}.

(** A service that answers "Hi!" with state S1, then "Goodbye!" with S2. *)
Definition env_hello (lines : list string) : Environment :=
  {| load_credentials := fun _ => inr creds0;
     service := fun n _ _ =>
       match n with
       | 0 => Yield (response "Hi!" S1) StopIteration
       | _ => Yield (response "Goodbye!" S2) StopIteration
       end;
     stdin := lines |}.

Definition env_no_credentials : Environment :=
  {| load_credentials := fun _ => inl (OSError "No such file");
     service := fun _ _ _ => StopIteration;
     stdin := [] |}.

(** One exchange: "A" with state S1, then a message with state S2 and no
    text. *)
Definition env_mixed : Environment :=
  env_const (Yield (response "A" S1) (Yield (response "" S2) StopIteration)) [].

(** One exchange: a message with state S1 and no text, then the deadline
    passes. *)
Definition env_deadline : Environment :=
  env_const (Yield (response "" S1) (Raises DEADLINE_EXCEEDED)) [].

(** Every exchange: one message with state S1 and no display text. *)
Definition env_silent (lines : list string) : Environment :=
  env_const (Yield (response "" S1) StopIteration) lines.

(** "Hi!" with state S1 to the first call, then replies without state. *)
Definition env_forgetful : Environment :=
  {| load_credentials := fun _ => inr creds0;
     service := fun n _ _ =>
       match n with
       | 0 => Yield (response "Hi!" S1) StopIteration
       | _ => Yield (response "Fine." []) StopIteration
       end;
     stdin := [] |}.

(** The frame in which the body of a run with the fixture options starts. *)
Definition f0 : SampleTextAssistant.Frame :=
  frame0 creds0 (options0 InputFalse).

(** ** More readings of requests and runs *)

Definition text_of_request (r : AssistRequest.t) : string :=
  AssistConfig.text_query (AssistRequest.config r).

Definition state_of_request (r : AssistRequest.t) : bytes :=
  DialogStateIn.conversation_state
    (AssistConfig.dialog_state_in (AssistRequest.config r)).

(** What the logging helpers were given, in order. *)
Definition logged_requests (tr : list Event) : list AssistRequest.t :=
  flat_map (fun e => match e with LogRequest r => [r] | _ => [] end) tr.

Definition logged_responses (tr : list Event) : list AssistResponse.t :=
  flat_map (fun e => match e with LogResponse r => [r] | _ => [] end) tr.

(** A call event made by session [s], whatever conversation state it held
    at the time: one request, built from the fields of [s], sent through
    the stub of [s] with the deadline of [s]. *)
Definition call_from (cfg : config.t) (s : SampleTextAssistant.t)
    (e : Event) : Prop :=
  match e with
  | RpcAssist stub reqs d =>
      stub = SampleTextAssistant.assistant s /\
      d = SampleTextAssistant.deadline s /\
      exists held text_query,
        reqs = [request_for cfg (with_conversation_state s held) text_query]
  | _ => True
  end.

(** A request that carries what the options and the configuration say. *)
Definition request_from_options (cfg : config.t) (o : Options)
    (r : AssistRequest.t) : Prop :=
  let c := AssistRequest.config r in
  let audio := config.audio_out_config (config.writtenAssist cfg) in
  DialogStateIn.language_code (AssistConfig.dialog_state_in c) = lang o /\
  DeviceConfig.device_id (AssistConfig.device_config c) = device_id o /\
  DeviceConfig.device_model_id (AssistConfig.device_config c)
    = device_model_id o /\
  AssistConfig.audio_out_config c =
    AudioOutConfig.mk (config.encoding audio)
      (config.sample_rate_hertz audio) (config.volume_percentage audio).

(** A call event made on the channel and with the deadline of the options. *)
Definition call_from_options (creds : Credentials) (o : Options)
    (e : Event) : Prop :=
  match e with
  | RpcAssist stub reqs d =>
      channel_target (stub_channel stub) = api_endpoint o /\
      channel_credentials (stub_channel stub) = creds /\
      d = grpc_deadline o /\
      List.length reqs = 1
  | _ => True
  end.

(** "Hi!" with state S1 to the first call; the second call is cut off
    after a message carrying S2. *)
Definition env_cut (lines : list string) : Environment :=
  {| load_credentials := fun _ => inr creds0;
     service := fun n _ _ =>
       match n with
       | 0 => Yield (response "Hi!" S1) StopIteration
       | _ => Yield (response "" S2) (Raises UNAVAILABLE)
       end;
     stdin := lines |}.

(** * Properties *)

Section SessionFacts.
Variable cfg : config.t.
Variable env : Environment.

Import SampleTextAssistant.

Lemma last_opt_cons {A} (x : A) (l : list A) :
  last_opt (x :: l) = match last_opt l with Some y => Some y | None => Some x end.
Proof.
  destruct l as [|y l]; [reflexivity|].
  change (last_opt (x :: y :: l)) with (last_opt (y :: l)).
  destruct (last_opt (y :: l)) eqn:E; [reflexivity|].
  exfalso. revert y E. induction l as [|z l IH]; intros y E; [discriminate|].
  exact (IH z E).
Qed.

Lemma last_opt_app {A} (l1 l2 : list A) :
  last_opt (l1 ++ l2) =
  match last_opt l2 with Some y => Some y | None => last_opt l1 end.
Proof.
  induction l1 as [|x l1 IH]; simpl app.
  - destruct (last_opt l2); reflexivity.
  - rewrite !last_opt_cons, IH. destruct (last_opt l2); reflexivity.
Qed.

Lemma carry_cons held r rs :
  carry held (r :: rs) =
  carry (if truthy_bytes (state_of r) then Some (state_of r) else held) rs.
Proof.
  unfold carry, states. simpl map. simpl filter.
  destruct (truthy_bytes (state_of r)); [|reflexivity].
  rewrite last_opt_cons.
  destruct (last_opt _); reflexivity.
Qed.

Lemma carry_app held rs1 rs2 :
  carry held (rs1 ++ rs2) = carry (carry held rs1) rs2.
Proof.
  unfold carry, states. rewrite map_app, filter_app, last_opt_app.
  destruct (last_opt (filter truthy_bytes (map state_of rs2))); reflexivity.
Qed.

Lemma reply_after_cons dt r rs :
  reply_after dt (r :: rs) =
  reply_after (if truthy_str (display_text_of r)
               then Some (display_text_of r) else dt) rs.
Proof.
  unfold reply_after, display_texts. simpl map. simpl filter.
  destruct (truthy_str (display_text_of r)); [|reflexivity].
  rewrite last_opt_cons.
  destruct (last_opt _); reflexivity.
Qed.

Lemma with_conversation_state_same s :
  with_conversation_state s (conversation_state s) = s.
Proof. destruct s; reflexivity. Qed.

Lemma extend_extend w evs1 n1 evs2 n2 :
  extend (extend w evs1 n1) evs2 n2 = extend w (evs1 ++ evs2) (n2 + n1).
Proof.
  unfold extend; simpl. f_equal.
  - symmetry; apply app_assoc.
  - lia.
Qed.

(** The loop over the responses. *)
Lemma for_resp_spec it : forall dt f,
  for_resp it dt f =
  (outcome it dt,
   {| self := with_conversation_state (self f)
                (carry (conversation_state (self f)) (received it));
      world := extend (world f) (map LogResponse (received it)) 0 |}).
Proof.
  induction it as [|code|resp rest IH]; intros dt f.
  - simpl. unfold ret, outcome, reply_after, carry, extend; simpl.
    rewrite with_conversation_state_same, app_nil_r.
    destruct f as [s [tr c ch]]; reflexivity.
  - simpl. unfold raise, outcome, carry, extend; simpl.
    rewrite with_conversation_state_same, app_nil_r.
    destruct f as [s [tr c ch]]; reflexivity.
  - cbn [for_resp received map]. unfold bind at 1. unfold lift at 1.
    unfold assistant_helpers.log_assist_response_without_audio.
    cbn [emit]. unfold bind at 1.
    rewrite carry_cons.
    unfold outcome. cbn [failure received]. rewrite reply_after_cons.
    fold (display_text_of resp). fold (state_of resp).
    destruct (truthy_bytes (state_of resp));
      cbn [set_conversation_state ret]; rewrite IH; unfold outcome;
      cbn [self world]; f_equal; f_equal;
      try (unfold extend; cbn [trace calls channels]; f_equal;
           rewrite <- app_assoc; reflexivity);
      destruct f as [[] ?]; reflexivity.
Qed.

(** The request generator. *)
Lemma iter_assist_requests_spec text_query f :
  iter_assist_requests cfg text_query f =
  (Ok [request_for cfg (self f) text_query],
   {| self := self f;
      world := extend (world f)
                 [LogRequest (request_for cfg (self f) text_query)] 0 |}).
Proof.
  unfold iter_assist_requests, bind, get_self, lift, ret, request_for,
    assistant_helpers.log_assist_request_without_audio, emit.
  cbn [self world].
  assert (E : (if truthy_opt_bytes (conversation_state (self f))
               then DialogStateIn.set_conversation_state
                      (DialogStateIn.mk (language_code (self f)) [])
                      match conversation_state (self f) with
                      | Some v => v
                      | None => []
                      end
               else DialogStateIn.mk (language_code (self f)) []) =
              DialogStateIn.mk (language_code (self f))
                (held_bytes (conversation_state (self f)))).
  { destruct (conversation_state (self f)) as [[|b v]|]; reflexivity. }
  rewrite E. reflexivity.
Qed.

(** One call. *)
Lemma assist_spec text_query f :
  let req := request_for cfg (self f) text_query in
  let it := exchange cfg env f text_query in
  assist cfg env text_query f =
  (outcome it None,
   {| self := with_conversation_state (self f)
                (carry (conversation_state (self f)) (received it));
      world := extend (world f) (call_events (self f) req it) 1 |}).
Proof.
  intros req it. unfold assist, Assist, bind, get_self, lift.
  cbn [emit self world]. rewrite iter_assist_requests_spec.
  unfold send. cbn [self world extend trace calls channels Nat.add].
  rewrite for_resp_spec. cbn [self world].
  fold req. unfold exchange in it. fold it.
  f_equal. f_equal.
  unfold extend, call_events. cbn [trace calls channels Nat.add].
  f_equal. rewrite <- !app_assoc. reflexivity.
Qed.

End SessionFacts.

Section ProgramFacts.
Variable cfg : config.t.
Variable env : Environment.

Import SampleTextAssistant.

Local Abbreviation promptIn := (config.promptIn (config.writtenAssist cfg)).
Local Abbreviation promptOut := (config.promptOut (config.writtenAssist cfg)).

Lemma single_shot_spec text_query f :
  let req := request_for cfg (self f) text_query in
  let it := exchange cfg env f text_query in
  single_shot cfg env text_query f =
  match outcome it None with
  | Ok dt =>
      (Ok tt, after_call cfg env f text_query
                (call_events (self f) req it ++ [Echo (percent_s dt)]))
  | Raise e =>
      (Raise e, after_call cfg env f text_query (call_events (self f) req it))
  end.
Proof.
  intros req it. unfold single_shot, bind. rewrite assist_spec.
  fold req it. destruct (outcome it None) as [dt|e]; [|reflexivity].
  unfold lift, emit, after_call. cbn [self world]. f_equal. f_equal.
  unfold extend. cbn [trace calls channels]. rewrite app_assoc. reflexivity.
Qed.

Lemma while_True_end f :
  while_True cfg env [] f =
  (Raise Abort,
   {| self := self f; world := extend (world f) [Prompt promptIn] 0 |}).
Proof. reflexivity. Qed.

(** After an empty line the loop is where it was, one prompt later. *)
Lemma while_True_skip value lines f :
  truthy_str value = false ->
  while_True cfg env (value :: lines) f =
  while_True cfg env lines
    {| self := self f; world := extend (world f) [Prompt promptIn] 0 |}.
Proof.
  intros Hv. cbn [while_True]. unfold bind at 1. unfold lift at 1.
  cbn [emit]. rewrite Hv. reflexivity.
Qed.

(** A turn of the loop, for a line that is not empty. *)
Lemma while_True_step text_query lines f :
  truthy_str text_query = true ->
  let req := request_for cfg (self f) text_query in
  let it := exchange cfg env f text_query in
  while_True cfg env (text_query :: lines) f =
  match outcome it None with
  | Ok dt =>
      while_True cfg env lines
        (after_call cfg env f text_query
           (Prompt promptIn :: call_events (self f) req it
            ++ [Echo (promptOut ++ " " ++ percent_s dt)]))
  | Raise e =>
      (Raise e,
       after_call cfg env f text_query (Prompt promptIn :: call_events (self f) req it))
  end.
Proof.
  intros Ht req it. cbn [while_True]. unfold bind at 1. unfold lift at 1.
  cbn [emit]. rewrite Ht. unfold bind at 1. rewrite assist_spec.
  subst req it. unfold after_call, exchange, extend.
  cbn [self world trace calls channels Nat.add].
  match goal with
  | |- context [outcome ?x None] => destruct (outcome x None) as [dt|e]
  end.
  - unfold bind at 1. unfold lift at 1.
    cbn [emit self world trace calls channels].
    f_equal. f_equal. f_equal. rewrite <- !app_assoc. reflexivity.
  - f_equal. f_equal. f_equal. rewrite <- !app_assoc. reflexivity.
Qed.

(** The loop is the loop of the source: prompt, call, print, again. *)
Lemma while_True_unfold lines : forall f,
  while_True cfg env lines f =
  (got <- lift (click_prompt promptIn lines) ;;
   display_text <- assist cfg env (fst got) ;;
   lift (emit (Echo (promptOut ++ " " ++ percent_s display_text))) ;;
   while_True cfg env (snd got)) f.
Proof.
  induction lines as [|value lines IH]; intros f; [reflexivity|].
  destruct (truthy_str value) eqn:Hv.
  - cbn [while_True click_prompt]. unfold bind, lift. cbn [emit].
    rewrite Hv. reflexivity.
  - rewrite (while_True_skip value lines f Hv), IH.
    cbn [click_prompt]. unfold bind at 3. unfold bind, lift. cbn [emit].
    rewrite Hv. cbn [self world]. unfold extend. cbn [Nat.add].
    reflexivity.
Qed.

Lemma call_events_session s req it :
  Forall (session_event (assistant s)) (call_events s req it).
Proof.
  unfold call_events. repeat constructor.
  apply Forall_forall. intros e He. apply in_map_iff in He.
  destruct He as [r [<- _]]. exact I.
Qed.

(** The loop never returns; what it does stays within the session. *)
Lemma while_True_inv lines : forall f r f',
  while_True cfg env lines f = (r, f') ->
  (exists e, r = Raise e) /\
  assistant (self f') = assistant (self f) /\
  exists evs n,
    world f' = extend (world f) (Prompt promptIn :: evs) n /\
    Forall (session_event (assistant (self f))) evs.
Proof.
  induction lines as [|text_query lines IH]; intros f r f' H.
  - rewrite while_True_end in H. inversion H; subst; clear H.
    split; [eexists; reflexivity|]. split; [reflexivity|].
    exists [], 0. split; [reflexivity | constructor].
  - destruct (truthy_str text_query) eqn:Ht.
    + rewrite (while_True_step text_query lines f Ht) in H.
      destruct (outcome (exchange cfg env f text_query) None) as [dt|e].
      * apply IH in H. destruct H as (Hr & Hs & evs & n & Hw & Hev).
        split; [exact Hr|]. split; [rewrite Hs; reflexivity|].
        cbn [after_call self world] in Hw, Hev.
        rewrite extend_extend in Hw. cbn [app] in Hw.
        eexists _, _. split; [exact Hw|].
        apply Forall_app. split.
        -- apply Forall_app. split; [apply call_events_session|].
           repeat constructor.
        -- constructor; [exact I | exact Hev].
      * inversion H; subst; clear H.
        split; [eexists; reflexivity|]. split; [reflexivity|].
        eexists _, _. split; [reflexivity | apply call_events_session].
    + rewrite (while_True_skip text_query lines f Ht) in H.
      apply IH in H. destruct H as (Hr & Hs & evs & n & Hw & Hev).
      split; [exact Hr|]. split; [exact Hs|].
      cbn [self world] in Hw, Hev.
      rewrite extend_extend in Hw. cbn [app] in Hw.
      eexists _, _. split; [exact Hw|].
      constructor; [exact I | exact Hev].
Qed.

Lemma main_failure o e :
  load_credentials env (credentials o) = inl e ->
  main cfg env o initial_world =
  (Ok tt,
   {| trace :=
        [BasicConfig (if verbose o then DEBUG else INFO);
         LogError ("Error loading credentials: " ++ str_of_error e);
         LogError
           "Run google-oauthlib-tool to initialize new OAuth 2.0 credentials."];
      calls := 0; channels := 0 |}).
Proof.
  intros H. unfold main, bind. cbn [emit]. rewrite H. reflexivity.
Qed.

Lemma main_session o creds :
  load_credentials env (credentials o) = inr creds ->
  main cfg env o initial_world =
  (match fst (body cfg env o (frame0 creds o)) with
   | Ok _ => Ok tt
   | Raise e => Raise e
   end,
   world (snd (body cfg env o (frame0 creds o)))).
Proof.
  intros H. unfold main, bind. cbn [emit]. rewrite H.
  unfold secure_authorized_channel, __init__, bind. cbn [emit].
  unfold ret, with_as, __enter__.
  cbn [initial_world trace calls channels app].
  fold (channel0 creds o). fold (session0 creds o).
  change {| self := session0 creds o;
            world := {| trace := [BasicConfig (if verbose o then DEBUG else INFO);
                                  ChannelCreated (channel0 creds o);
                                  StubCreated (channel0 creds o)];
                        calls := 0; channels := 1 |} |}
    with (frame0 creds o).
  fold (body cfg env o).
  destruct (body cfg env o (frame0 creds o)) as [[u|e] f]; reflexivity.
Qed.

End ProgramFacts.

(** ** The session: replies, conversation state, requests *)

Section SessionClaims.
Variable cfg : config.t.
Variable env : Environment.

Import SampleTextAssistant.

(** C1.  When the exchange of a call delivers its messages and ends,
    [assist] returns the last non-empty display text among all the messages
    of the exchange, and [None] when no message carried display text.  The
    conversation state is picked in the same way from the conversation-state
    fields alone: each of the two is the last non-empty value of its own
    field, whatever the other field held in the same message. *)
Theorem assist_returns_last_display_text text_query f :
  failure (exchange cfg env f text_query) = None ->
  fst (assist cfg env text_query f) =
    Ok (last_opt (display_texts (received (exchange cfg env f text_query))))
  /\ (display_texts (received (exchange cfg env f text_query)) = [] ->
      fst (assist cfg env text_query f) = Ok None)
  /\ conversation_state (self (snd (assist cfg env text_query f))) =
     match last_opt (states (received (exchange cfg env f text_query))) with
     | Some s => Some s
     | None => conversation_state (self f)
     end.
Proof.
  intros Hend. rewrite assist_spec. cbn [fst snd self].
  unfold outcome. rewrite Hend. unfold reply_after.
  split; [|split].
  - destruct (last_opt _); reflexivity.
  - intros ->. reflexivity.
  - reflexivity.
Qed.

(** C2.  After any sequence of successful calls on one session, the
    conversation state held is the last non-empty conversation state
    received in those calls; if none was received, in particular after a
    call whose messages carry none, the state held before is still held. *)
Theorem conversation_state_carried_forward f rs f' :
  successful_calls cfg env f rs f' ->
  conversation_state (self f') =
    match last_opt (states rs) with
    | Some s => Some s
    | None => conversation_state (self f)
    end
  /\ (states rs = [] -> conversation_state (self f') = conversation_state (self f)).
Proof.
  intros H.
  assert (E : conversation_state (self f') = carry (conversation_state (self f)) rs).
  { induction H as [f|f text_query reply f1 w rs f2 Hcall _ IH].
    - reflexivity.
    - rewrite IH, carry_app. cbn [self]. rewrite assist_spec in Hcall.
      inversion Hcall; subst; reflexivity. }
  split; [exact E|].
  intros Hnone. rewrite E. unfold carry. rewrite Hnone. reflexivity.
Qed.

(** C3.  Every call sends exactly one request.  Its conversation state is
    empty when the session holds none and is the held state, unchanged,
    otherwise; it carries the session's language code, device model id and
    device id, the audio output settings of the configuration, and the
    text of the query. *)
Theorem request_carries_held_state text_query f :
  let req := request_for cfg (self f) text_query in
  let dialog := AssistConfig.dialog_state_in (AssistRequest.config req) in
  let device := AssistConfig.device_config (AssistRequest.config req) in
  let audio := AssistConfig.audio_out_config (AssistRequest.config req) in
  let written := config.audio_out_config (config.writtenAssist cfg) in
  sent (trace (world (snd (assist cfg env text_query f)))) =
    (sent (trace (world f)) ++ [req])%list
  /\ call_count (trace (world (snd (assist cfg env text_query f)))) =
     S (call_count (trace (world f)))
  /\ DialogStateIn.conversation_state dialog =
     match conversation_state (self f) with
     | None => []
     | Some state => state
     end
  /\ DialogStateIn.language_code dialog = language_code (self f)
  /\ DeviceConfig.device_model_id device = device_model_id (self f)
  /\ DeviceConfig.device_id device = device_id (self f)
  /\ AudioOutConfig.encoding audio = config.encoding written
  /\ AudioOutConfig.sample_rate_hertz audio = config.sample_rate_hertz written
  /\ AudioOutConfig.volume_percentage audio = config.volume_percentage written
  /\ AssistConfig.text_query (AssistRequest.config req) = text_query.
Proof.
  intros req dialog device audio written.
  rewrite assist_spec. cbn [snd world].
  unfold extend, call_events. cbn [trace].
  assert (Hsent : forall rs, sent (map LogResponse rs) = []).
  { induction rs as [|r rs IH]; [reflexivity | exact IH]. }
  assert (Hcount : forall rs, filter is_call (map LogResponse rs) = []).
  { induction rs as [|r rs IH]; [reflexivity | exact IH]. }
  split; [|split].
  - unfold sent at 1. rewrite flat_map_app. cbn [flat_map requests_of app].
    fold (sent (map LogResponse (received (exchange cfg env f text_query)))).
    rewrite Hsent. reflexivity.
  - unfold call_count. rewrite filter_app. cbn [filter is_call].
    rewrite Hcount, length_app. cbn [List.length]. lia.
  - subst dialog. cbn. unfold held_bytes.
    destruct (conversation_state (self f)); repeat split; reflexivity.
Qed.

(** C4, as the code has it.  A call whose exchange fails raises the error
    to the caller.  The session then holds the last non-empty conversation
    state received before the failure; the state held before the call is
    left as it was when no message received before the failure carried
    one. *)
Theorem failed_call_keeps_received_state text_query f code :
  failure (exchange cfg env f text_query) = Some code ->
  fst (assist cfg env text_query f) = Raise (RpcError code)
  /\ conversation_state (self (snd (assist cfg env text_query f))) =
     match last_opt (states (received (exchange cfg env f text_query))) with
     | Some s => Some s
     | None => conversation_state (self f)
     end
  /\ (states (received (exchange cfg env f text_query)) = [] ->
      conversation_state (self (snd (assist cfg env text_query f))) =
      conversation_state (self f)).
Proof.
  intros Hfail. rewrite assist_spec. cbn [fst snd self].
  unfold outcome. rewrite Hfail.
  split; [reflexivity|]. split; [reflexivity|].
  intros Hnone. unfold carry. rewrite Hnone. reflexivity.
Qed.

(** C9.  A call changes no field of the session other than the
    conversation state: the language code, the device model id, the device
    id, the stub with its channel, and the deadline are as before, whether
    the call returns or raises. *)
Theorem assist_frame text_query f :
  let s' := self (snd (assist cfg env text_query f)) in
  language_code s' = language_code (self f)
  /\ device_model_id s' = device_model_id (self f)
  /\ device_id s' = device_id (self f)
  /\ assistant s' = assistant (self f)
  /\ deadline s' = deadline (self f).
Proof.
  intros s'. subst s'. rewrite assist_spec. cbn [snd self].
  repeat split; reflexivity.
Qed.

End SessionClaims.

(** ** The program: credentials, modes, the channel *)

Section ProgramClaims.
Variable cfg : config.t.
Variable env : Environment.

Import SampleTextAssistant.

Local Abbreviation promptIn := (config.promptIn (config.writtenAssist cfg)).
Local Abbreviation promptOut := (config.promptOut (config.writtenAssist cfg)).

Lemma flat_map_responses {B} (g : Event -> list B) rs :
  (forall r, g (LogResponse r) = []) ->
  flat_map g (map LogResponse rs) = [].
Proof.
  intros Hg. induction rs as [|r rs IH]; [reflexivity|].
  cbn [map flat_map]. rewrite Hg, IH. reflexivity.
Qed.

Lemma call_count_responses rs : call_count (map LogResponse rs) = 0.
Proof. induction rs as [|r rs IH]; [reflexivity | exact IH]. Qed.

Lemma call_count_app tr1 tr2 :
  call_count (tr1 ++ tr2) = call_count tr1 + call_count tr2.
Proof. unfold call_count. rewrite filter_app. apply length_app. Qed.

(** Events of a session body create and close nothing, and its calls go
    through the session's stub. *)
Lemma session_events_channels stub evs :
  Forall (session_event stub) evs ->
  created evs = [] /\ closed evs = [] /\ stubs evs = [] /\
  forall ch, In ch (call_channels evs) -> ch = stub_channel stub.
Proof.
  induction 1 as [|e evs He _ IH]; [repeat split; intros ch []|].
  destruct IH as (Hc & Hd & Hs & Hch).
  destruct e; cbn in He; try contradiction;
    (split; [exact Hc|]; split; [exact Hd|]; split; [exact Hs|]);
    try exact Hch.
  intros ch [Hin|Hin]; [subst; reflexivity | exact (Hch ch Hin)].
Qed.

(** Whatever the mode, the body of the [with] only adds session events. *)
Lemma body_inv o f :
  exists evs n,
    world (snd (body cfg env o f)) = extend (world f) evs n /\
    Forall (session_event (assistant (self f))) evs.
Proof.
  assert (Hloop : forall lines, exists evs n,
             world (snd (while_True cfg env lines f)) = extend (world f) evs n /\
             Forall (session_event (assistant (self f))) evs).
  { intros lines.
    destruct (while_True cfg env lines f) as [r f'] eqn:E.
    apply while_True_inv in E. destruct E as (_ & _ & evs & n & Hw & Hev).
    exists (Prompt promptIn :: evs), n.
    split; [exact Hw | constructor; [exact I | exact Hev]]. }
  unfold body. destruct (input o) as [|text_query]; [apply Hloop|].
  destruct (truthy_str text_query); [|apply Hloop].
  rewrite single_shot_spec.
  destruct (outcome _ None) as [dt|e]; cbn [snd after_call world];
    eexists _, _; (split; [reflexivity|]).
  - apply Forall_app. split; [apply call_events_session | repeat constructor].
  - apply call_events_session.
Qed.

(** In either of the falsy cases the body starts by prompting. *)
Lemma interactive_prompts f :
  exists evs n,
    world (snd (while_True cfg env (stdin env) f)) =
    extend (world f) (Prompt promptIn :: evs) n.
Proof.
  destruct (while_True cfg env (stdin env) f) as [r f'] eqn:E.
  apply while_True_inv in E. destruct E as (_ & _ & evs & n & Hw & _).
  exists evs, n. exact Hw.
Qed.

Lemma truthy_str_iff s : truthy_str s = true <-> s <> "".
Proof. destruct s; cbn; split; congruence. Qed.

(** The run of [main] in single-shot mode. *)
Lemma main_single_shot o creds text_query :
  load_credentials env (credentials o) = inr creds ->
  input o = InputText text_query ->
  text_query <> "" ->
  let f := frame0 creds o in
  let req := request_for cfg (self f) text_query in
  let it := exchange cfg env f text_query in
  main cfg env o initial_world =
  match outcome it None with
  | Ok dt =>
      (Ok tt,
       extend (world f) (call_events (self f) req it ++ [Echo (percent_s dt)]) 1)
  | Raise e => (Raise e, extend (world f) (call_events (self f) req it) 1)
  end.
Proof.
  intros Hc Hi Ht f req it. rewrite (main_session cfg env o creds Hc).
  unfold body. rewrite Hi.
  apply truthy_str_iff in Ht. rewrite Ht.
  rewrite single_shot_spec. fold f req it.
  destruct (outcome it None); reflexivity.
Qed.

Lemma echoed_app tr1 tr2 : echoed (tr1 ++ tr2) = (echoed tr1 ++ echoed tr2)%list.
Proof. apply flat_map_app. Qed.

Lemma echoed_call_events s req it : echoed (call_events s req it) = [].
Proof.
  unfold call_events, echoed. cbn [flat_map app].
  apply flat_map_responses. reflexivity.
Qed.

Lemma echoed_Prompt p tr : echoed (Prompt p :: tr) = echoed tr.
Proof. reflexivity. Qed.

Lemma echoed_prompts p n : echoed (repeat (Prompt p) n) = [].
Proof. induction n as [|n IH]; [reflexivity | exact IH]. Qed.

Lemma frame_extend_nil f :
  {| self := self f; world := extend (world f) [] 0 |} = f.
Proof.
  destruct f as [s [tr c ch]]. unfold extend. cbn. rewrite app_nil_r.
  reflexivity.
Qed.

(** The loop reads on to the first line that is not empty, prompting once
    for every empty line on the way. *)
Lemma while_True_next lines : forall f text_query rest,
  typed lines = text_query :: rest ->
  exists n lines',
    typed lines' = rest
    /\ truthy_str text_query = true
    /\ while_True cfg env lines f =
       while_True cfg env (text_query :: lines')
         {| self := self f;
            world := extend (world f) (repeat (Prompt promptIn) n) 0 |}.
Proof.
  induction lines as [|value lines IH]; intros f text_query rest Hty;
    [discriminate|].
  unfold typed in Hty. cbn [filter] in Hty.
  destruct (truthy_str value) eqn:Hv.
  - inversion Hty; subst. exists 0, lines.
    split; [reflexivity|]. split; [exact Hv|].
    cbn [repeat]. rewrite frame_extend_nil. reflexivity.
  - destruct (IH {| self := self f;
                    world := extend (world f) [Prompt promptIn] 0 |}
                text_query rest Hty) as (n & lines' & Hrest & Ht & Hloop).
    exists (S n), lines'. split; [exact Hrest|]. split; [exact Ht|].
    rewrite (while_True_skip cfg env value lines f Hv), Hloop.
    cbn [self world]. rewrite extend_extend. reflexivity.
Qed.

(** C5, as the code has it.  When the exchange of a call ends without any
    message carrying display text, [assist] returns [None] and raises
    nothing; the program prints that absent reply as the text [None]: alone
    in single-shot mode, and after the output label and a space in
    interactive mode, where the loop then goes on to the next turn.  The
    last two parts read this off whole runs of the program, for the first
    call of a run; in interactive mode that call is for the first line
    typed that is not empty. *)
Theorem absent_reply_prints_None text_query lines f :
  failure (exchange cfg env f text_query) = None ->
  display_texts (received (exchange cfg env f text_query)) = [] ->
  fst (assist cfg env text_query f) = Ok None
  /\ (fst (single_shot cfg env text_query f) = Ok tt /\
      echoed (trace (world (snd (single_shot cfg env text_query f)))) =
      (echoed (trace (world f)) ++ ["None"])%list)
  /\ (text_query <> "" ->
      exists f1,
        while_True cfg env (text_query :: lines) f =
        while_True cfg env lines f1
        /\ self f1 = self (snd (assist cfg env text_query f))
        /\ echoed (trace (world f1)) =
           (echoed (trace (world f)) ++ [(promptOut ++ " None")%string])%list)
  /\ (forall o creds,
        load_credentials env (credentials o) = inr creds ->
        f = frame0 creds o ->
        input o = InputText text_query ->
        text_query <> "" ->
        fst (main cfg env o initial_world) = Ok tt /\
        echoed (trace (snd (main cfg env o initial_world))) = ["None"])
  /\ (forall o creds rest,
        load_credentials env (credentials o) = inr creds ->
        f = frame0 creds o ->
        input o = InputText "" \/ input o = InputFalse ->
        typed (stdin env) = text_query :: rest ->
        hd_error (echoed (trace (snd (main cfg env o initial_world)))) =
        Some (promptOut ++ " None")).
Proof.
  intros Hend Hnone.
  set (req := request_for cfg (self f) text_query).
  set (it := exchange cfg env f text_query) in *.
  assert (E : outcome it None = Ok None).
  { unfold outcome, reply_after. rewrite Hend, Hnone. reflexivity. }
  split; [|split; [|split; [|split]]].
  - rewrite assist_spec. cbn [fst]. exact E.
  - rewrite single_shot_spec. fold it. rewrite E.
    cbn [fst snd after_call world extend trace].
    split; [reflexivity|].
    rewrite !echoed_app, echoed_call_events. reflexivity.
  - intros Ht. apply truthy_str_iff in Ht.
    rewrite (while_True_step cfg env text_query lines f Ht).
    fold it. rewrite E. eexists. split; [reflexivity|].
    rewrite assist_spec. cbn [snd after_call self world extend trace].
    split; [reflexivity|].
    rewrite echoed_app, echoed_Prompt, echoed_app, echoed_call_events.
    reflexivity.
  - intros o creds Hc Hf Hi Ht.
    rewrite (main_single_shot o creds text_query Hc Hi Ht).
    rewrite <- Hf. fold it. rewrite E. cbn [fst snd extend trace].
    split; [reflexivity|].
    rewrite Hf at 1. cbn [frame0 world trace].
    rewrite !echoed_app, echoed_call_events. reflexivity.
  - intros o creds rest Hc Hf Hi Hty.
    rewrite (main_session cfg env o creds Hc). cbn [snd].
    assert (Hb : body cfg env o (frame0 creds o) =
                 while_True cfg env (stdin env) f).
    { rewrite Hf. unfold body. destruct Hi as [-> | ->]; reflexivity. }
    rewrite Hb.
    destruct (while_True_next (stdin env) f text_query rest Hty)
      as (n & lines' & _ & Ht & Hloop).
    rewrite Hloop, (while_True_step cfg env text_query lines' _ Ht).
    cbn [self].
    match goal with
    | |- context [outcome ?x None] => change x with it
    end.
    rewrite E.
    destruct (while_True cfg env lines' _) as [r f'] eqn:Erest.
    apply while_True_inv in Erest.
    destruct Erest as (_ & _ & evs & m & Hw & _).
    cbn [snd]. rewrite Hw. cbn [after_call world extend trace].
    rewrite Hf at 1. cbn [frame0 world trace].
    rewrite !echoed_app, echoed_prompts, echoed_Prompt, echoed_app,
      echoed_call_events.
    reflexivity.
Qed.

(** C6.  When loading the credentials fails (the file cannot be read, its
    contents are malformed, or the refresh is rejected), the program logs
    the error and the advice to run google-oauthlib-tool and returns
    normally; no channel, no session stub and no call has been made. *)
Theorem credential_failure_stops_before_session o e :
  load_credentials env (credentials o) = inl e ->
  let run := main cfg env o initial_world in
  fst run = Ok tt
  /\ exit_status (fst run) = 0%Z
  /\ trace (snd run) =
     [BasicConfig (if verbose o then DEBUG else INFO);
      LogError ("Error loading credentials: " ++ str_of_error e);
      LogError
        "Run google-oauthlib-tool to initialize new OAuth 2.0 credentials."]
  /\ created (trace (snd run)) = []
  /\ stubs (trace (snd run)) = []
  /\ call_count (trace (snd run)) = 0.
Proof.
  intros H run. subst run. rewrite (main_failure cfg env o e H).
  repeat split; reflexivity.
Qed.


(** The trace of an interactive run starts with the startup events and a
    prompt. *)
Lemma main_interactive o creds :
  load_credentials env (credentials o) = inr creds ->
  input o = InputText "" \/ input o = InputFalse ->
  exists evs,
    trace (snd (main cfg env o initial_world)) =
    (startup creds o ++ Prompt promptIn :: evs)%list.
Proof.
  intros Hc Hi. rewrite (main_session cfg env o creds Hc). cbn [snd].
  assert (Hb : body cfg env o (frame0 creds o) =
               while_True cfg env (stdin env) (frame0 creds o)).
  { unfold body. destruct Hi as [-> | ->]; reflexivity. }
  rewrite Hb.
  destruct (interactive_prompts (frame0 creds o)) as (evs & n & Hw).
  rewrite Hw. exists evs. reflexivity.
Qed.

Lemma prompted_single_shot o creds text_query :
  load_credentials env (credentials o) = inr creds ->
  input o = InputText text_query ->
  text_query <> "" ->
  prompted (trace (snd (main cfg env o initial_world))) = [].
Proof.
  intros Hc Hi Ht.
  rewrite (main_single_shot o creds text_query Hc Hi Ht).
  assert (Hresp : forall it, prompted (map LogResponse (received it)) = []).
  { intros it. apply flat_map_responses. reflexivity. }
  destruct (outcome _ None); cbn [snd extend trace];
    unfold call_events, prompted; rewrite !flat_map_app;
    cbn [flat_map app world frame0 trace startup];
    fold (prompted (map LogResponse
                      (received (exchange cfg env (frame0 creds o) text_query))));
    rewrite Hresp; reflexivity.
Qed.

(** C8, as the code has it.  In every run at most one channel is created;
    when the credentials load it is created once, before the session, whose
    stub is built on it, and every call of the run goes through it.  The
    program never closes the channel, on any way out: leaving the [with]
    calls [__exit__], which does nothing and never swallows the exception
    that left the body. *)
Theorem channel_created_once_never_closed o :
  let tr := trace (snd (main cfg env o initial_world)) in
  List.length (created tr) <= 1
  /\ (forall creds, load_credentials env (credentials o) = inr creds ->
      created tr = [channel0 creds o] /\ stubs tr = [channel0 creds o])
  /\ (forall ch, In ch (call_channels tr) -> created tr = [ch])
  /\ closed tr = []
  /\ (forall s e, truthy_opt_bool (__exit__ s e) = false).
Proof.
  intros tr.
  assert (Hexit : forall s e, truthy_opt_bool (__exit__ s e) = false).
  { intros s [e|]; reflexivity. }
  destruct (load_credentials env (credentials o)) as [e|creds] eqn:Hc.
  - subst tr. rewrite (main_failure cfg env o e Hc). cbn.
    repeat split; try (intros; discriminate); try tauto. lia.
  - destruct (body_inv o (frame0 creds o)) as (evs & n & Hw & Hev).
    apply session_events_channels in Hev.
    destruct Hev as (Hcr & Hcl & Hst & Hch).
    assert (Htr : tr = (startup creds o ++ evs)%list).
    { subst tr. rewrite (main_session cfg env o creds Hc). cbn [snd].
      rewrite Hw. reflexivity. }
    assert (Hcreated : created tr = [channel0 creds o]).
    { rewrite Htr. unfold created. rewrite flat_map_app.
      fold (created evs). rewrite Hcr. reflexivity. }
    split; [rewrite Hcreated; cbn; lia|].
    split.
    { intros creds' Hc'. inversion Hc'; subst creds'. split; [exact Hcreated|].
      rewrite Htr. unfold stubs. rewrite flat_map_app.
      fold (stubs evs). rewrite Hst. reflexivity. }
    split.
    { intros ch Hin. rewrite Hcreated. f_equal.
      rewrite Htr in Hin. unfold call_channels in Hin.
      rewrite flat_map_app in Hin. cbn [startup flat_map app] in Hin.
      symmetry. exact (Hch ch Hin). }
    split; [|exact Hexit].
    rewrite Htr. unfold closed. rewrite flat_map_app.
    fold (closed evs). rewrite Hcl. reflexivity.
Qed.

(** C10.  The mode depends on the truth value of [--input] alone.  With the
    empty string the program runs exactly as with the default [False]: it
    prompts, as in interactive mode.  A run goes without prompting, in
    single-shot mode, only when the input is a non-empty string, and always
    then. *)
Theorem empty_input_selects_interactive o creds :
  load_credentials env (credentials o) = inr creds ->
  let tr := trace (snd (main cfg env o initial_world)) in
  (input o = InputText "" ->
   forall w, main cfg env o w = main cfg env (with_input o InputFalse) w)
  /\ (input o = InputText "" \/ input o = InputFalse ->
      hd_error (prompted tr) = Some promptIn)
  /\ (prompted tr = [] <-> exists s, input o = InputText s /\ s <> "").
Proof.
  intros Hc tr.
  assert (Hint : input o = InputText "" \/ input o = InputFalse ->
                 hd_error (prompted tr) = Some promptIn).
  { intros Hi. destruct (main_interactive o creds Hc Hi) as (evs & Htr).
    subst tr. rewrite Htr. reflexivity. }
  split; [|split].
  - intros Hi w. unfold main. cbn [with_input credentials verbose api_endpoint
      lang device_model_id device_id grpc_deadline input].
    rewrite Hi. reflexivity.
  - exact Hint.
  - split.
    + intros Hnone. destruct (input o) as [|s] eqn:Hi.
      * rewrite Hnone in Hint. discriminate (Hint (or_intror eq_refl)).
      * destruct s as [|a s].
        -- rewrite Hnone in Hint. discriminate (Hint (or_introl eq_refl)).
        -- exists (String a s). split; [reflexivity | discriminate].
    + intros (s & Hi & Hs). exact (prompted_single_shot o creds s Hc Hi Hs).
Qed.

End ProgramClaims.

(** ** Runs on the fixtures *)

Section Runs.
Import SampleTextAssistant.

Lemma assist_returns_last_display_text_witness :
  failure (exchange cfg0 env_mixed f0 "hi") = None
  /\ fst (assist cfg0 env_mixed "hi" f0) = Ok (Some "A")
  /\ conversation_state (self (snd (assist cfg0 env_mixed "hi" f0))) = Some S2.
Proof.
  split; [reflexivity|].
  destruct (assist_returns_last_display_text cfg0 env_mixed "hi" f0 eq_refl)
    as (Hreply & _ & Hstate).
  split; [exact Hreply | exact Hstate].
Defined.

Lemma conversation_state_carried_forward_witness :
  let f1 := snd (assist cfg0 env_forgetful "hello" f0) in
  let w := extend (world f1) [Echo "<@assistant> Hi!"; Prompt "<you>"] 0 in
  let f1' := {| self := self f1; world := w |} in
  let f2 := snd (assist cfg0 env_forgetful "how are you" f1') in
  let rs := (received (exchange cfg0 env_forgetful f0 "hello")
             ++ received (exchange cfg0 env_forgetful f1' "how are you")
             ++ [])%list in
  successful_calls cfg0 env_forgetful f0 rs f2
  /\ conversation_state (self f2) = Some S1.
Proof.
  intros f1 w f1' f2 rs.
  assert (H : successful_calls cfg0 env_forgetful f0 rs f2).
  { apply (calls_step cfg0 env_forgetful f0 "hello" (Some "Hi!") f1 w);
      [reflexivity|].
    apply (calls_step cfg0 env_forgetful f1' "how are you" (Some "Fine.") f2
             (world f2));
      [reflexivity|].
    apply calls_done. }
  split; [exact H|].
  exact (proj1 (conversation_state_carried_forward cfg0 env_forgetful f0 rs f2 H)).
Defined.

(** C4 fails as stated: a message carrying S1 arrives, then the deadline
    passes; the call raises and the session, idle before, holds S1. *)
Lemma failed_call_partial_update :
  let run := assist cfg0 env_deadline "hi" f0 in
  fst run = Raise (RpcError DEADLINE_EXCEEDED)
  /\ conversation_state (self f0) = None
  /\ conversation_state (self (snd run)) = Some S1
  /\ conversation_state (self (snd run)) <> conversation_state (self f0).
Proof.
  cbv zeta. repeat split; try reflexivity. vm_compute. discriminate.
Qed.

Lemma failed_call_keeps_received_state_witness :
  failure (exchange cfg0 env_deadline f0 "hi") = Some DEADLINE_EXCEEDED
  /\ fst (assist cfg0 env_deadline "hi" f0) = Raise (RpcError DEADLINE_EXCEEDED)
  /\ conversation_state (self (snd (assist cfg0 env_deadline "hi" f0))) = Some S1.
Proof.
  split; [reflexivity|].
  destruct (failed_call_keeps_received_state cfg0 env_deadline "hi" f0
              DEADLINE_EXCEEDED eq_refl) as (Hraise & Hstate & _).
  split; [exact Hraise | exact Hstate].
Defined.

(** C5 fails as stated: with no display text in the response the line
    printed is [None], not an empty line, in both modes. *)
Lemma absent_reply_not_blank :
  let single := main cfg0 (env_silent []) (options0 (InputText "hi"))
                  initial_world in
  let interactive := main cfg0 (env_silent ["hi"]) (options0 InputFalse)
                       initial_world in
  fst single = Ok tt
  /\ echoed (trace (snd single)) = ["None"]
  /\ echoed (trace (snd single)) <> [""]
  /\ echoed (trace (snd interactive)) = ["<@assistant> None"]
  /\ echoed (trace (snd interactive)) <> ["<@assistant> "].
Proof.
  cbv zeta. repeat split; try reflexivity; vm_compute; discriminate.
Qed.

Lemma absent_reply_prints_None_witness :
  let env := env_silent [""; "hi"] in
  failure (exchange cfg0 env f0 "hi") = None
  /\ display_texts (received (exchange cfg0 env f0 "hi")) = []
  /\ fst (assist cfg0 env "hi" f0) = Ok None
  /\ echoed (trace (world (snd (single_shot cfg0 env "hi" f0)))) = ["None"]
  /\ hd_error
       (echoed (trace (snd (main cfg0 env (options0 InputFalse)
                              initial_world))))
     = Some "<@assistant> None".
Proof.
  intros env.
  split; [reflexivity|]. split; [reflexivity|].
  destruct (absent_reply_prints_None cfg0 env "hi" [] f0
              eq_refl eq_refl) as (Hreply & (_ & Hsingle) & _ & _ & Hmain).
  split; [exact Hreply|]. split.
  - exact Hsingle.
  - exact (Hmain (options0 InputFalse) creds0 [] eq_refl eq_refl
             (or_intror eq_refl) eq_refl).
Defined.

Lemma credential_failure_stops_before_session_witness :
  load_credentials env_no_credentials
    (credentials (options0 (InputText "hi"))) = inl (OSError "No such file")
  /\ main cfg0 env_no_credentials (options0 (InputText "hi")) initial_world =
     (Ok tt,
      {| trace :=
           [BasicConfig INFO;
            LogError "Error loading credentials: No such file";
            LogError
              "Run google-oauthlib-tool to initialize new OAuth 2.0 credentials."];
         calls := 0; channels := 0 |}).
Proof.
  split; [reflexivity|].
  destruct (credential_failure_stops_before_session cfg0 env_no_credentials
              (options0 (InputText "hi")) (OSError "No such file") eq_refl)
    as (Hret & _ & Htrace & _).
  destruct (main cfg0 env_no_credentials (options0 (InputText "hi"))
              initial_world) as [r [tr c ch]] eqn:E.
  cbn [fst snd trace] in Hret, Htrace. subst r tr.
  rewrite <- E. reflexivity.
Defined.


(** C8 fails as stated: the run returns normally and the channel it created
    has not been closed. *)
Lemma channel_left_open :
  let run := main cfg0 (env_hello []) (options0 (InputText "hello"))
               initial_world in
  let ch := channel0 creds0 (options0 (InputText "hello")) in
  fst run = Ok tt
  /\ created (trace (snd run)) = [ch]
  /\ call_channels (trace (snd run)) = [ch]
  /\ ~ In ch (closed (trace (snd run))).
Proof.
  cbv zeta. repeat split; try reflexivity. vm_compute. tauto.
Qed.

Lemma empty_input_selects_interactive_witness :
  let o := options0 (InputText "") in
  let env := env_hello ["hello"] in
  load_credentials env (credentials o) = inr creds0
  /\ main cfg0 env o initial_world =
     main cfg0 env (options0 InputFalse) initial_world
  /\ prompted (trace (snd (main cfg0 env o initial_world))) = ["<you>"; "<you>"]
  /\ echoed (trace (snd (main cfg0 env o initial_world))) = ["<@assistant> Hi!"].
Proof.
  intros o env.
  split; [reflexivity|].
  destruct (empty_input_selects_interactive cfg0 env o creds0 eq_refl)
    as (Hsame & _ & _).
  split; [exact (Hsame eq_refl initial_world)|].
  split; reflexivity.
Defined.

End Runs.

(** ** More on the session *)

Section SessionMore.
Variable cfg : config.t.
Variable env : Environment.

Import SampleTextAssistant.

Lemma last_opt_In {A} (l : list A) x : last_opt l = Some x -> In x l.
Proof.
  induction l as [|y l IH]; [discriminate|].
  rewrite last_opt_cons. destruct (last_opt l) as [z|].
  - intros H. right. apply IH. exact H.
  - intros H. inversion H. left. reflexivity.
Qed.

Lemma states_In rs s :
  In s (states rs) -> s <> [] /\ exists r, In r rs /\ state_of r = s.
Proof.
  unfold states. intros H. apply filter_In in H. destruct H as [Hin Ht].
  split; [intros ->; discriminate|].
  apply in_map_iff in Hin. destruct Hin as (r & Hr & Hin).
  exists r. split; [exact Hin | exact Hr].
Qed.

(** X6.  The state held by a session is never the empty byte string: a call
    keeps that so, whether it returns or raises, and what it installs is
    the state of one of the messages received, as it came. *)
Theorem assist_keeps_state_nonempty text_query f :
  conversation_state (self f) <> Some [] ->
  let s' := self (snd (assist cfg env text_query f)) in
  conversation_state s' <> Some []
  /\ (conversation_state s' = conversation_state (self f)
      \/ exists r, In r (received (exchange cfg env f text_query))
                   /\ state_of r <> []
                   /\ conversation_state s' = Some (state_of r)).
Proof.
  intros Hheld s'. subst s'. rewrite assist_spec. cbn [snd self].
  unfold carry.
  destruct (last_opt (states (received (exchange cfg env f text_query))))
    as [s|] eqn:E.
  - apply last_opt_In, states_In in E. destruct E as (Hs & r & Hin & Hr).
    split; [intros H; inversion H; contradiction|].
    right. exists r. subst s. repeat split; assumption.
  - split; [exact Hheld | left; reflexivity].
Qed.

(** X7.  Two calls in a row on one session: the request of the second carries
    the last non-empty state received in the first, and the state the first
    request carried when there was none; this holds also when the first
    call raised and the caller went on.  Nothing the program did in between
    matters. *)
Theorem consecutive_requests_thread_state text1 text2 f w :
  let s1 := self (snd (assist cfg env text1 f)) in
  let req1 := request_for cfg (self f) text1 in
  let req2 := request_for cfg s1 text2 in
  sent (trace (world (snd (assist cfg env text2 {| self := s1; world := w |}))))
    = (sent (trace w) ++ [req2])%list
  /\ state_of_request req2 =
     match last_opt (states (received (exchange cfg env f text1))) with
     | Some s => s
     | None => state_of_request req1
     end
  /\ text_of_request req2 = text2.
Proof.
  intros s1 req1 req2.
  split; [|split].
  - rewrite assist_spec. cbn [snd world self extend trace].
    unfold sent. rewrite flat_map_app. unfold call_events.
    cbn [flat_map requests_of app].
    rewrite (flat_map_responses requests_of); [reflexivity|].
    reflexivity.
  - subst req2 s1. rewrite assist_spec. cbn [snd self].
    unfold state_of_request, request_for, carry. cbn.
    destruct (last_opt _); reflexivity.
  - reflexivity.
Qed.

Lemma logged_responses_map rs : logged_responses (map LogResponse rs) = rs.
Proof.
  induction rs as [|r rs IH]; [reflexivity|].
  cbn [map]. change (r :: logged_responses (map LogResponse rs) = r :: rs).
  rewrite IH. reflexivity.
Qed.

(** X8.  What one call hands to the logging helpers, whether it returns or
    raises: the one request it sends, and every message received, in the
    order received.  A call prints nothing and prompts for nothing. *)
Theorem assist_trace text_query f :
  let f' := snd (assist cfg env text_query f) in
  let req := request_for cfg (self f) text_query in
  logged_requests (trace (world f')) =
    (logged_requests (trace (world f)) ++ [req])%list
  /\ logged_responses (trace (world f')) =
     (logged_responses (trace (world f))
      ++ received (exchange cfg env f text_query))%list
  /\ echoed (trace (world f')) = echoed (trace (world f))
  /\ prompted (trace (world f')) = prompted (trace (world f))
  /\ calls (world f') = S (calls (world f)).
Proof.
  intros f' req. subst f'. rewrite assist_spec.
  cbn [snd world extend trace calls]. fold req. unfold call_events.
  set (rs := received (exchange cfg env f text_query)).
  split; [|split; [|split; [|split]]].
  - unfold logged_requests. rewrite flat_map_app. cbn [flat_map app].
    rewrite flat_map_responses; reflexivity.
  - unfold logged_responses. rewrite flat_map_app. cbn [flat_map app].
    fold (logged_responses (map LogResponse rs)).
    rewrite logged_responses_map. reflexivity.
  - unfold echoed. rewrite flat_map_app. cbn [flat_map app].
    rewrite flat_map_responses, app_nil_r; reflexivity.
  - unfold prompted. rewrite flat_map_app. cbn [flat_map app].
    rewrite flat_map_responses, app_nil_r; reflexivity.
  - reflexivity.
Qed.

End SessionMore.

(** ** More on the interactive loop and on whole runs *)

Section LoopMore.
Variable cfg : config.t.
Variable env : Environment.

Import SampleTextAssistant.

Local Abbreviation promptIn := (config.promptIn (config.writtenAssist cfg)).
Local Abbreviation promptOut := (config.promptOut (config.writtenAssist cfg)).

Lemma sent_app tr1 tr2 : sent (tr1 ++ tr2) = (sent tr1 ++ sent tr2)%list.
Proof. apply flat_map_app. Qed.

Lemma prompted_app tr1 tr2 :
  prompted (tr1 ++ tr2) = (prompted tr1 ++ prompted tr2)%list.
Proof. apply flat_map_app. Qed.

Lemma sent_call_events s req it : sent (call_events s req it) = [req].
Proof.
  unfold call_events, sent. cbn [flat_map requests_of app].
  rewrite flat_map_responses; reflexivity.
Qed.

Lemma prompted_call_events s req it : prompted (call_events s req it) = [].
Proof.
  unfold call_events, prompted. cbn [flat_map app].
  apply flat_map_responses. reflexivity.
Qed.

Lemma call_count_events s req it : call_count (call_events s req it) = 1.
Proof.
  unfold call_events.
  change (S (call_count (map LogResponse (received it))) = 1).
  rewrite call_count_responses. reflexivity.
Qed.

Lemma outcome_Raise it dt e :
  outcome it dt = Raise e -> exists code, e = RpcError code.
Proof.
  unfold outcome. destruct (failure it) as [code|]; [|discriminate].
  intros H. inversion H. exists code. reflexivity.
Qed.

Lemma call_count_Prompt p tr : call_count (Prompt p :: tr) = call_count tr.
Proof. reflexivity. Qed.

Lemma prompted_Prompt p tr : prompted (Prompt p :: tr) = p :: prompted tr.
Proof. reflexivity. Qed.

Lemma sent_Prompt p tr : sent (Prompt p :: tr) = sent tr.
Proof. reflexivity. Qed.

(** The events a loop adds, and how they count, by the way the loop ends. *)
Lemma while_True_shape lines : forall f,
  exists evs,
    trace (world (snd (while_True cfg env lines f))) =
      (trace (world f) ++ evs)%list
    /\ call_count evs <= List.length (typed lines)
    /\ map text_of_request (sent evs) = firstn (call_count evs) (typed lines)
    /\ match fst (while_True cfg env lines f) with
       | Ok _ => False
       | Raise Abort =>
           call_count evs = List.length (typed lines)
           /\ List.length (prompted evs) = S (List.length lines)
           /\ List.length (echoed evs) = List.length (typed lines)
       | Raise (RpcError _) =>
           1 <= call_count evs
           /\ call_count evs <= List.length (prompted evs)
           /\ List.length (prompted evs) <= List.length lines
           /\ S (List.length (echoed evs)) = call_count evs
       end.
Proof.
  induction lines as [|text_query lines IH]; intros f.
  - rewrite while_True_end. cbn [fst snd world extend trace].
    exists [Prompt promptIn]. repeat split; cbn; lia.
  - unfold typed. cbn [filter].
    destruct (truthy_str text_query) eqn:Ht.
    + fold (typed lines).
      rewrite (while_True_step cfg env text_query lines f Ht).
      set (req := request_for cfg (self f) text_query).
      set (it := exchange cfg env f text_query).
      destruct (outcome it None) as [dt|e] eqn:E.
      * set (f1 := after_call cfg env f text_query _).
        destruct (IH f1) as (evs & Htr & Hle & Htexts & Hend).
        set (echo := Echo (promptOut ++ " " ++ percent_s dt)) in *.
        set (turn := (Prompt promptIn :: call_events (self f) req it
                      ++ [echo])%list).
        assert (Hc : call_count turn = 1).
        { unfold turn.
          rewrite call_count_Prompt, call_count_app, call_count_events.
          reflexivity. }
        assert (Hs : sent turn = [req]).
        { unfold turn. rewrite sent_Prompt, sent_app, sent_call_events.
          reflexivity. }
        assert (Hp : prompted turn = [promptIn]).
        { unfold turn.
          rewrite prompted_Prompt, prompted_app, prompted_call_events.
          reflexivity. }
        assert (He : List.length (echoed turn) = 1).
        { unfold turn.
          rewrite echoed_Prompt, echoed_app, echoed_call_events.
          reflexivity. }
        exists (turn ++ evs)%list.
        split.
        { rewrite Htr. unfold f1. cbn [after_call world extend trace].
          fold turn. rewrite <- app_assoc. reflexivity. }
        rewrite call_count_app, sent_app, prompted_app, echoed_app, Hc, Hs, Hp.
        rewrite !length_app, He. cbn [List.length app map Nat.add firstn].
        split; [lia|]. split; [rewrite Htexts; reflexivity|].
        destruct (fst (while_True cfg env lines f1)) as [u|[code|]];
          [contradiction | |]; lia.
      * destruct (outcome_Raise it None e E) as [code ->].
        cbn [fst snd after_call world extend trace].
        exists (Prompt promptIn :: call_events (self f) req it).
        split; [reflexivity|].
        rewrite call_count_Prompt, sent_Prompt, prompted_Prompt,
          echoed_Prompt, call_count_events, sent_call_events,
          prompted_call_events, echoed_call_events.
        cbn. repeat split; lia.
    + fold (typed lines).
      rewrite (while_True_skip cfg env text_query lines f Ht).
      destruct (IH {| self := self f;
                      world := extend (world f) [Prompt promptIn] 0 |})
        as (evs & Htr & Hle & Htexts & Hend).
      exists (Prompt promptIn :: evs).
      split.
      { rewrite Htr. cbn [world extend trace].
        rewrite <- app_assoc. reflexivity. }
      rewrite call_count_Prompt, sent_Prompt, prompted_Prompt, echoed_Prompt.
      split; [exact Hle|]. split; [exact Htexts|].
      destruct (fst (while_True cfg env lines _)) as [u|[code|]];
        [contradiction | |]; cbn [List.length]; lia.
Qed.

(** When every exchange completes, only the end of the input stops the
    loop. *)
Lemma while_True_all_complete lines : forall f,
  (forall n reqs d, failure (service env n reqs d) = None) ->
  fst (while_True cfg env lines f) = Raise Abort.
Proof.
  induction lines as [|text_query lines IH]; intros f Hall.
  - reflexivity.
  - destruct (truthy_str text_query) eqn:Ht.
    + rewrite (while_True_step cfg env text_query lines f Ht).
      assert (E : failure (exchange cfg env f text_query) = None)
        by apply Hall.
      unfold outcome. rewrite E. apply IH, Hall.
    + rewrite (while_True_skip cfg env text_query lines f Ht).
      apply IH, Hall.
Qed.

(** The body of an interactive run is the loop over the input. *)
Lemma body_interactive o :
  input o = InputText "" \/ input o = InputFalse ->
  body cfg env o = while_True cfg env (stdin env).
Proof. unfold body. intros [-> | ->]; reflexivity. Qed.

(** X1.  An interactive run never returns: it ends with [Abort] from the
    prompt that finds the input at its end, or with the error of a failed
    call.  Calls are made for the typed lines that are not empty, in order,
    one per such line; an empty line only brings another prompt.  Ending at
    the end of the input, every such line was sent and answered by one
    printed line, and there was one prompt more than lines read.  Ending on
    a failed call, no line was printed for that call and none after it, and
    no more prompts were shown than lines were typed. *)
Theorem interactive_run_shape o creds :
  load_credentials env (credentials o) = inr creds ->
  input o = InputText "" \/ input o = InputFalse ->
  let run := main cfg env o initial_world in
  let tr := trace (snd run) in
  call_count tr <= List.length (typed (stdin env))
  /\ map text_of_request (sent tr) = firstn (call_count tr) (typed (stdin env))
  /\ exit_status (fst run) = 1%Z
  /\ match fst run with
     | Ok _ => False
     | Raise Abort =>
         call_count tr = List.length (typed (stdin env))
         /\ List.length (prompted tr) = S (List.length (stdin env))
         /\ List.length (echoed tr) = List.length (typed (stdin env))
     | Raise (RpcError _) =>
         1 <= call_count tr
         /\ call_count tr <= List.length (prompted tr)
         /\ List.length (prompted tr) <= List.length (stdin env)
         /\ S (List.length (echoed tr)) = call_count tr
     end.
Proof.
  intros Hc Hi run tr. subst tr run.
  rewrite (main_session cfg env o creds Hc). cbn [fst snd].
  rewrite (body_interactive o Hi).
  destruct (while_True_shape (stdin env) (frame0 creds o))
    as (evs & Htr & Hle & Htexts & Hend).
  rewrite Htr. cbn [frame0 world trace].
  assert (H1 : call_count (startup creds o ++ evs) = call_count evs).
  { rewrite call_count_app. reflexivity. }
  assert (H2 : sent (startup creds o ++ evs) = sent evs).
  { rewrite sent_app. reflexivity. }
  assert (H3 : prompted (startup creds o ++ evs) = prompted evs).
  { rewrite prompted_app. reflexivity. }
  assert (H4 : echoed (startup creds o ++ evs) = echoed evs).
  { rewrite echoed_app. reflexivity. }
  rewrite H1, H2, H3, H4.
  split; [exact Hle|]. split; [exact Htexts|].
  destruct (fst (while_True cfg env (stdin env) (frame0 creds o)))
    as [u|[code|]]; [contradiction | |]; (split; [reflexivity | exact Hend]).
Qed.

(** X2.  When the service completes every exchange, an interactive run
    sends every typed line that is not empty, in order, prints one line for
    each, prompts once for every line read and once more, and ends with
    [Abort] at the end of the input. *)
Theorem interactive_run_complete o creds :
  load_credentials env (credentials o) = inr creds ->
  input o = InputText "" \/ input o = InputFalse ->
  (forall n reqs d, failure (service env n reqs d) = None) ->
  let run := main cfg env o initial_world in
  let tr := trace (snd run) in
  fst run = Raise Abort
  /\ map text_of_request (sent tr) = typed (stdin env)
  /\ call_count tr = List.length (typed (stdin env))
  /\ List.length (echoed tr) = List.length (typed (stdin env))
  /\ List.length (prompted tr) = S (List.length (stdin env)).
Proof.
  intros Hc Hi Hall run tr. subst tr run.
  rewrite (main_session cfg env o creds Hc). cbn [fst snd].
  rewrite (body_interactive o Hi).
  pose proof (while_True_all_complete (stdin env) (frame0 creds o) Hall) as Hr.
  destruct (while_True_shape (stdin env) (frame0 creds o))
    as (evs & Htr & _ & Htexts & Hend).
  rewrite Hr in Hend |- *. destruct Hend as (Hcalls & Hp & He).
  rewrite Htr. cbn [frame0 world trace].
  rewrite call_count_app, sent_app, prompted_app, echoed_app.
  cbn [startup call_count filter is_call sent prompted echoed flat_map
       requests_of app List.length Nat.add].
  fold (sent evs). fold (prompted evs). fold (echoed evs).
  fold (call_count evs).
  rewrite Htexts, Hcalls, firstn_all, Hp, He. repeat split; reflexivity.
Qed.

End LoopMore.

(** ** What the options of a run become on the wire *)

Section WireMore.
Variable cfg : config.t.
Variable env : Environment.

Import SampleTextAssistant.

Local Abbreviation promptIn := (config.promptIn (config.writtenAssist cfg)).
Local Abbreviation promptOut := (config.promptOut (config.writtenAssist cfg)).

Lemma call_from_with_state s v e :
  call_from cfg (with_conversation_state s v) e <-> call_from cfg s e.
Proof. destruct e; cbn; tauto. Qed.

Lemma call_events_from s text_query it :
  Forall (call_from cfg s) (call_events s (request_for cfg s text_query) it).
Proof.
  unfold call_events. constructor; [exact I|].
  constructor; [exact I|]. constructor.
  - cbn. split; [reflexivity|]. split; [reflexivity|].
    exists (conversation_state s), text_query.
    rewrite with_conversation_state_same. reflexivity.
  - apply Forall_forall. intros e He. apply in_map_iff in He.
    destruct He as [r [<- _]]. exact I.
Qed.

(** Every call of a loop is a call of the session it started with. *)
Lemma while_True_calls lines : forall f,
  exists evs,
    trace (world (snd (while_True cfg env lines f))) =
      (trace (world f) ++ evs)%list
    /\ Forall (call_from cfg (self f)) evs.
Proof.
  induction lines as [|text_query lines IH]; intros f.
  - rewrite while_True_end. cbn [snd world extend trace].
    exists [Prompt promptIn]. split; [reflexivity | repeat constructor].
  - destruct (truthy_str text_query) eqn:Ht.
    + rewrite (while_True_step cfg env text_query lines f Ht).
      destruct (outcome (exchange cfg env f text_query) None) as [dt|e].
      * match goal with
        | |- context [while_True cfg env lines ?x] => set (f1 := x)
        end.
        destruct (IH f1) as (evs & Htr & Hev).
        eexists. split.
        { rewrite Htr. unfold f1. cbn [after_call world extend trace].
          rewrite <- app_assoc. reflexivity. }
        apply Forall_app. split.
        -- constructor; [exact I|]. apply Forall_app.
           split; [apply call_events_from | repeat constructor].
        -- unfold f1 in Hev. cbn [after_call self] in Hev.
           eapply Forall_impl; [|exact Hev].
           intros e. apply call_from_with_state.
      * cbn [snd after_call world extend trace].
        eexists. split; [reflexivity|].
        constructor; [exact I | apply call_events_from].
    + rewrite (while_True_skip cfg env text_query lines f Ht).
      destruct (IH {| self := self f;
                      world := extend (world f) [Prompt promptIn] 0 |})
        as (evs & Htr & Hev).
      exists (Prompt promptIn :: evs). split.
      { rewrite Htr. cbn [world extend trace].
        rewrite <- app_assoc. reflexivity. }
      constructor; [exact I | exact Hev].
Qed.

Lemma sent_prompts p n : sent (repeat (Prompt p) n) = [].
Proof. induction n as [|n IH]; [reflexivity | exact IH]. Qed.

(** The requests of a loop start with the request for the first line that
    is not empty. *)
Lemma while_True_first lines f :
  exists evs more,
    trace (world (snd (while_True cfg env lines f))) =
      (trace (world f) ++ evs)%list
    /\ sent evs =
       match typed lines with
       | [] => []
       | text_query :: _ => request_for cfg (self f) text_query :: more
       end.
Proof.
  destruct (typed lines) as [|text_query rest] eqn:Hty.
  - destruct (while_True_shape cfg env lines f)
      as (evs & Htr & Hle & Htexts & _).
    exists evs, []. split; [exact Htr|].
    rewrite Hty in Hle. cbn in Hle.
    assert (Hz : call_count evs = 0) by lia.
    rewrite Hz in Htexts. cbn in Htexts.
    destruct (sent evs); [reflexivity | discriminate].
  - destruct (while_True_next cfg env lines f text_query rest Hty)
      as (n & lines' & _ & Ht & Hloop).
    rewrite Hloop, (while_True_step cfg env text_query lines' _ Ht).
    cbn [self].
    set (req := request_for cfg (self f) text_query).
    match goal with
    | |- context [outcome ?x None] => set (it := x)
    end.
    destruct (outcome it None) as [dt|e].
    + destruct (while_True cfg env lines' _) as [r f'] eqn:E.
      apply while_True_inv in E. destruct E as (_ & _ & evs & m & Hw & _).
      cbn [snd]. rewrite Hw.
      cbn [after_call world extend trace].
      eexists _, (sent evs). split.
      { rewrite <- !app_assoc. reflexivity. }
      rewrite !sent_app, sent_prompts, !sent_Prompt, sent_app,
        sent_call_events.
      reflexivity.
    + cbn [snd after_call world extend trace].
      eexists _, []. split; [rewrite <- app_assoc; reflexivity|].
      rewrite sent_app, sent_prompts, sent_Prompt, sent_call_events.
      reflexivity.
Qed.

Lemma body_calls o f :
  exists evs,
    trace (world (snd (body cfg env o f))) = (trace (world f) ++ evs)%list
    /\ Forall (call_from cfg (self f)) evs
    /\ forall req more,
         sent evs = req :: more ->
         state_of_request req = held_bytes (conversation_state (self f)).
Proof.
  assert (Hloop : exists evs,
             trace (world (snd (while_True cfg env (stdin env) f))) =
               (trace (world f) ++ evs)%list
             /\ Forall (call_from cfg (self f)) evs
             /\ forall req more,
                  sent evs = req :: more ->
                  state_of_request req =
                  held_bytes (conversation_state (self f))).
  { destruct (while_True_calls (stdin env) f) as (evs & Htr & Hev).
    destruct (while_True_first (stdin env) f) as (evs' & more & Htr' & Hs).
    assert (evs' = evs) by (rewrite Htr in Htr'; exact (app_inv_head _ _ _ (eq_sym Htr'))).
    subst evs'. exists evs. split; [exact Htr|]. split; [exact Hev|].
    intros req more' Hreq. rewrite Hs in Hreq.
    destruct (typed (stdin env)); [discriminate|].
    inversion Hreq. reflexivity. }
  unfold body. destruct (input o) as [|text_query]; [exact Hloop|].
  destruct (truthy_str text_query); [|exact Hloop].
  rewrite single_shot_spec.
  set (req := request_for cfg (self f) text_query).
  set (it := exchange cfg env f text_query).
  destruct (outcome it None) as [dt|e]; cbn [snd after_call world extend trace];
    eexists; (split; [reflexivity|]); split.
  - apply Forall_app. split; [apply call_events_from | repeat constructor].
  - intros r more Hr. rewrite sent_app, sent_call_events in Hr.
    inversion Hr. reflexivity.
  - apply call_events_from.
  - intros r more Hr. rewrite sent_call_events in Hr.
    inversion Hr. reflexivity.
Qed.

Lemma sent_from s evs :
  Forall (call_from cfg s) evs ->
  forall req, In req (sent evs) ->
    exists held text_query,
      req = request_for cfg (with_conversation_state s held) text_query.
Proof.
  induction 1 as [|e evs He _ IH]; intros req Hin; [destruct Hin|].
  change (sent (e :: evs)) with (requests_of e ++ sent evs)%list in Hin.
  apply in_app_or in Hin. destruct Hin as [Hin|Hin]; [|exact (IH req Hin)].
  destruct e; try destruct Hin.
  cbn in He. destruct He as (_ & _ & held & text_query & ->).
  destruct Hin as [<-|[]]. exists held, text_query. reflexivity.
Qed.

(** X3.  In every run whose credentials load, in either mode, each request
    sent carries the language code, the device id and the device model id
    given in the options and the audio settings of the configuration; each
    call is made with one request, with the deadline of the options, on a
    channel to the endpoint of the options opened with the loaded
    credentials; and the first request of the run carries no conversation
    state. *)
Theorem run_calls_follow_options o creds :
  load_credentials env (credentials o) = inr creds ->
  let tr := trace (snd (main cfg env o initial_world)) in
  Forall (request_from_options cfg o) (sent tr)
  /\ Forall (call_from_options creds o) tr
  /\ forall req more, sent tr = req :: more -> state_of_request req = [].
Proof.
  intros Hc tr. subst tr.
  rewrite (main_session cfg env o creds Hc). cbn [snd].
  destruct (body_calls o (frame0 creds o)) as (evs & Htr & Hev & Hfirst).
  rewrite Htr. cbn [frame0 world trace self] in *.
  split; [|split].
  - rewrite sent_app. cbn [startup sent flat_map requests_of app].
    fold (sent evs). apply Forall_forall. intros req Hin.
    destruct (sent_from _ _ Hev req Hin) as (held & text_query & ->).
    repeat split.
  - apply Forall_app. split; [repeat constructor|].
    eapply Forall_impl; [|exact Hev].
    intros [] He; try exact I.
    cbn in He. destruct He as (-> & -> & held & text_query & ->).
    repeat split.
  - intros req more Hs. rewrite sent_app in Hs.
    exact (Hfirst req more Hs).
Qed.

(** X4.  In an interactive run in which at least two lines that are not
    empty are typed and the first exchange completes, the first request
    carries the first such line and no conversation state, and the second
    carries the second such line and the last non-empty state received in
    the first exchange, or none if there was none. *)
Theorem interactive_second_request_carries_state o creds text1 text2 rest :
  load_credentials env (credentials o) = inr creds ->
  input o = InputText "" \/ input o = InputFalse ->
  typed (stdin env) = text1 :: text2 :: rest ->
  failure (exchange cfg env (frame0 creds o) text1) = None ->
  exists req1 req2 more,
    sent (trace (snd (main cfg env o initial_world))) = req1 :: req2 :: more
    /\ text_of_request req1 = text1
    /\ state_of_request req1 = []
    /\ text_of_request req2 = text2
    /\ state_of_request req2 =
       match last_opt (states (received
                                 (exchange cfg env (frame0 creds o) text1))) with
       | Some s => s
       | None => []
       end.
Proof.
  intros Hc Hi Hty Hend.
  rewrite (main_session cfg env o creds Hc). cbn [snd].
  rewrite (body_interactive cfg env o Hi).
  set (f := frame0 creds o) in *.
  destruct (while_True_next cfg env (stdin env) f text1 (text2 :: rest) Hty)
    as (n & lines' & Hty' & Ht & Hloop).
  rewrite Hloop, (while_True_step cfg env text1 lines' _ Ht). cbn [self].
  set (req1 := request_for cfg (self f) text1).
  set (it := exchange cfg env f text1) in *.
  match goal with
  | |- context [outcome ?x None] => change x with it
  end.
  unfold outcome. rewrite Hend.
  match goal with
  | |- context [while_True cfg env lines' ?x] => set (f1 := x)
  end.
  destruct (while_True_first lines' f1) as (evs & more & Htr & Hs).
  rewrite Hty' in Hs.
  rewrite Htr. unfold f1 at 1. cbn [after_call world extend trace].
  exists req1, (request_for cfg (self f1) text2), more.
  split.
  { rewrite !sent_app, sent_prompts, sent_Prompt, sent_app,
      sent_call_events, Hs.
    reflexivity. }
  split; [reflexivity|]. split; [reflexivity|]. split; [reflexivity|].
  unfold f1. cbn [after_call self].
  match goal with
  | |- context [received ?x] => change x with it
  end.
  unfold state_of_request, request_for, carry. cbn.
  destruct (last_opt _); reflexivity.
Qed.

End WireMore.

(** ** What an interactive run prints *)

Section PrintMore.
Variable cfg : config.t.
Variable env : Environment.

Import SampleTextAssistant.

Local Abbreviation promptIn := (config.promptIn (config.writtenAssist cfg)).
Local Abbreviation promptOut := (config.promptOut (config.writtenAssist cfg)).

Lemma while_True_echoes lines : forall f,
  exists evs,
    trace (world (snd (while_True cfg env lines f))) =
      (trace (world f) ++ evs)%list
    /\ Forall (fun line => exists reply,
                 line = promptOut ++ " " ++ percent_s reply
                 /\ (reply = None \/ exists text, reply = Some text /\ text <> ""))
         (echoed evs)
    /\ Forall (fun label => label = promptIn) (prompted evs).
Proof.
  induction lines as [|text_query lines IH]; intros f.
  - rewrite while_True_end. cbn [snd world extend trace].
    exists [Prompt promptIn]. split; [reflexivity|].
    split; repeat constructor.
  - destruct (truthy_str text_query) eqn:Hline.
    + rewrite (while_True_step cfg env text_query lines f Hline).
      set (req := request_for cfg (self f) text_query).
      set (it := exchange cfg env f text_query).
      destruct (outcome it None) as [dt|e] eqn:E.
      * match goal with
        | |- context [while_True cfg env lines ?x] => set (f1 := x)
        end.
        destruct (IH f1) as (evs & Htr & Hecho & Hprompt).
        eexists. split.
        { rewrite Htr. unfold f1. cbn [after_call world extend trace].
          rewrite <- app_assoc. reflexivity. }
        cbn [app].
        rewrite echoed_Prompt, prompted_Prompt, !echoed_app, !prompted_app,
          echoed_call_events, prompted_call_events.
        cbn [echoed prompted flat_map app]. split.
        -- constructor; [|exact Hecho]. exists dt. split; [reflexivity|].
           unfold outcome in E. destruct (failure it); [discriminate|].
           inversion E as [Hdt]. unfold reply_after.
           destruct (last_opt (display_texts (received it))) as [text|] eqn:El;
             [|left; reflexivity].
           right. exists text. split; [reflexivity|].
           apply last_opt_In in El. unfold display_texts in El.
           apply filter_In in El. destruct El as [_ Ht].
           apply truthy_str_iff. exact Ht.
        -- constructor; [reflexivity | exact Hprompt].
      * cbn [snd after_call world extend trace].
        eexists. split; [reflexivity|].
        rewrite echoed_Prompt, prompted_Prompt, echoed_call_events,
          prompted_call_events.
        split; repeat constructor.
    + rewrite (while_True_skip cfg env text_query lines f Hline).
      destruct (IH {| self := self f;
                      world := extend (world f) [Prompt promptIn] 0 |})
        as (evs & Htr & Hecho & Hprompt).
      exists (Prompt promptIn :: evs). split.
      { rewrite Htr. cbn [world extend trace].
        rewrite <- app_assoc. reflexivity. }
      rewrite echoed_Prompt, prompted_Prompt.
      split; [exact Hecho | constructor; [reflexivity | exact Hprompt]].
Qed.

(** X5.  In an interactive run every prompt shows the input label of the
    configuration, and every line printed is the output label, a space, and
    then either a non-empty reply text or the word None; a line is never
    the label alone. *)
Theorem interactive_run_prints_labelled_replies o creds :
  load_credentials env (credentials o) = inr creds ->
  input o = InputText "" \/ input o = InputFalse ->
  let tr := trace (snd (main cfg env o initial_world)) in
  Forall (fun line => exists reply,
            line = promptOut ++ " " ++ percent_s reply
            /\ (reply = None \/ exists text, reply = Some text /\ text <> ""))
    (echoed tr)
  /\ Forall (fun label => label = promptIn) (prompted tr).
Proof.
  intros Hc Hi tr. subst tr.
  rewrite (main_session cfg env o creds Hc). cbn [snd].
  rewrite (body_interactive cfg env o Hi).
  destruct (while_True_echoes (stdin env) (frame0 creds o))
    as (evs & Htr & Hecho & Hprompt).
  rewrite Htr. cbn [frame0 world trace].
  rewrite echoed_app, prompted_app.
  split; [exact Hecho | exact Hprompt].
Qed.

End PrintMore.

(** ** More runs on the fixtures *)

Section MoreRuns.
Import SampleTextAssistant.

Lemma assist_keeps_state_nonempty_witness :
  conversation_state (self f0) <> Some []
  /\ conversation_state (self (snd (assist cfg0 env_mixed "hi" f0))) <> Some [].
Proof.
  assert (H : conversation_state (self f0) <> Some []) by discriminate.
  split; [exact H|].
  exact (proj1 (assist_keeps_state_nonempty cfg0 env_mixed "hi" f0 H)).
Defined.

Lemma interactive_run_shape_witness :
  let o := options0 InputFalse in
  let env := env_cut ["hello"; ""; "bye"; "more"] in
  let run := main cfg0 env o initial_world in
  load_credentials env (credentials o) = inr creds0
  /\ (input o = InputText "" \/ input o = InputFalse)
  /\ fst run = Raise (RpcError UNAVAILABLE)
  /\ map text_of_request (sent (trace (snd run))) = ["hello"; "bye"]
  /\ exit_status (fst run) = 1%Z
  /\ List.length (prompted (trace (snd run))) = 3
  /\ echoed (trace (snd run)) = ["<@assistant> Hi!"].
Proof.
  intros o env run.
  split; [reflexivity|]. split; [right; reflexivity|].
  destruct (interactive_run_shape cfg0 env o creds0 eq_refl
              (or_intror eq_refl)) as (_ & Htexts & Hstatus & _).
  split; [reflexivity|]. split; [exact Htexts|]. split; [exact Hstatus|].
  split; reflexivity.
Defined.

Lemma interactive_run_complete_witness :
  let o := options0 InputFalse in
  let env := env_hello [""; "hello"; ""; "bye"] in
  let run := main cfg0 env o initial_world in
  load_credentials env (credentials o) = inr creds0
  /\ (input o = InputText "" \/ input o = InputFalse)
  /\ (forall n reqs d, failure (service env n reqs d) = None)
  /\ fst run = Raise Abort
  /\ map text_of_request (sent (trace (snd run))) = ["hello"; "bye"]
  /\ List.length (prompted (trace (snd run))) = 5
  /\ echoed (trace (snd run)) = ["<@assistant> Hi!"; "<@assistant> Goodbye!"].
Proof.
  intros o env run.
  assert (Hall : forall n reqs d, failure (service env n reqs d) = None).
  { intros [|n] reqs d; reflexivity. }
  split; [reflexivity|]. split; [right; reflexivity|]. split; [exact Hall|].
  destruct (interactive_run_complete cfg0 env o creds0 eq_refl
              (or_intror eq_refl) Hall) as (Hr & Htexts & _ & _ & Hp).
  split; [exact Hr|]. split; [exact Htexts|]. split; [exact Hp | reflexivity].
Defined.

Lemma run_calls_follow_options_witness :
  let o := options0 (InputText "hello") in
  let env := env_hello [] in
  let tr := trace (snd (main cfg0 env o initial_world)) in
  load_credentials env (credentials o) = inr creds0
  /\ Forall (request_from_options cfg0 o) (sent tr)
  /\ Forall (call_from_options creds0 o) tr
  /\ map state_of_request (sent tr) = [[]].
Proof.
  intros o env tr.
  split; [reflexivity|].
  destruct (run_calls_follow_options cfg0 env o creds0 eq_refl)
    as (Hreq & Hcall & _).
  split; [exact Hreq|]. split; [exact Hcall | reflexivity].
Defined.

Lemma interactive_second_request_carries_state_witness :
  let o := options0 InputFalse in
  let env := env_hello [""; "hello"; ""; "bye"] in
  load_credentials env (credentials o) = inr creds0
  /\ (input o = InputText "" \/ input o = InputFalse)
  /\ typed (stdin env) = ["hello"; "bye"]
  /\ failure (exchange cfg0 env (frame0 creds0 o) "hello") = None
  /\ exists req1 req2 more,
       sent (trace (snd (main cfg0 env o initial_world))) = req1 :: req2 :: more
       /\ text_of_request req1 = "hello"
       /\ state_of_request req1 = []
       /\ text_of_request req2 = "bye"
       /\ state_of_request req2 = S1.
Proof.
  intros o env.
  split; [reflexivity|]. split; [right; reflexivity|].
  split; [reflexivity|]. split; [reflexivity|].
  destruct (interactive_second_request_carries_state cfg0 env o creds0
              "hello" "bye" [] eq_refl (or_intror eq_refl) eq_refl eq_refl)
    as (req1 & req2 & more & Hs & Ht1 & H1 & Ht2 & H2).
  exists req1, req2, more.
  repeat split; assumption.
Defined.

Lemma interactive_run_prints_labelled_replies_witness :
  let o := options0 InputFalse in
  let env := env_silent ["hello"] in
  let tr := trace (snd (main cfg0 env o initial_world)) in
  load_credentials env (credentials o) = inr creds0
  /\ (input o = InputText "" \/ input o = InputFalse)
  /\ Forall (fun line => exists reply,
               line = "<@assistant>" ++ " " ++ percent_s reply
               /\ (reply = None \/ exists text, reply = Some text /\ text <> ""))
       (echoed tr)
  /\ echoed tr = ["<@assistant> None"].
Proof.
  intros o env tr.
  split; [reflexivity|]. split; [right; reflexivity|].
  split; [|reflexivity].
  exact (proj1 (interactive_run_prints_labelled_replies cfg0 env o creds0
                  eq_refl (or_intror eq_refl))).
Defined.

End MoreRuns.
